(** * musicserver: the fetch-resolve-cache pipeline of [music_server.py]

    A shallow embedding of the Flask handlers [stream_pcm] and
    [serve_cache] and of the helpers [get_cache_id] and [make_meta_json],
    with the external collaborators (YouTube search, yt-dlp, YouTube Music,
    the transcript API) as oracles, and the file system and the calls made
    as explicit state. *)

From Stdlib Require Import NArith ZArith Ascii String DecimalString.
From stdpp Require Import base option list gmap.

Local Open Scope N_scope.
Local Set Warnings "-register-all".

(** ** Python values *)

(** A Python [str] is a sequence of code points; [bytes] a sequence of
    octets.  Both are lists of [N]. *)
Abbreviation pystr := (list N).
Abbreviation pybytes := (list N).

(** String literals of the source, as code-point lists. *)
Definition py (s : string) : pystr :=
  (fun a => N_of_ascii a) <$> list_ascii_of_string s.

(** What [str] can hold: code points up to U+10FFFF (lone surrogates
    included). *)
Definition is_code_point (c : N) : Prop := c < 0x110000.
Definition is_surrogate (c : N) : bool := (0xD800 <=? c) && (c <=? 0xDFFF).

(** Strings that have a UTF-8 encoding: every element is a Unicode scalar
    value. *)
Definition scalar_value (c : N) : Prop := c < 0x110000 ∧ is_surrogate c = false.
Definition utf8_text (s : pystr) : Prop := Forall scalar_value s.

(** ** [str.encode("utf-8")] *)

(** [None] stands for [UnicodeEncodeError] (surrogates not allowed). *)
Definition utf8_char (c : N) : option pybytes :=
  if c <? 0x80 then Some [c]
  else if c <? 0x800 then
    Some [N.lor 0xC0 (N.shiftr c 6); N.lor 0x80 (N.land c 0x3F)]
  else if c <? 0x10000 then
    if is_surrogate c then None
    else Some [N.lor 0xE0 (N.shiftr c 12);
               N.lor 0x80 (N.land (N.shiftr c 6) 0x3F);
               N.lor 0x80 (N.land c 0x3F)]
  else if c <? 0x110000 then
    Some [N.lor 0xF0 (N.shiftr c 18);
          N.lor 0x80 (N.land (N.shiftr c 12) 0x3F);
          N.lor 0x80 (N.land (N.shiftr c 6) 0x3F);
          N.lor 0x80 (N.land c 0x3F)]
  else None.

Fixpoint encode_utf8 (s : pystr) : option pybytes :=
  match s with
  | [] => Some []
  | c :: s' =>
      match utf8_char c, encode_utf8 s' with
      | Some b, Some bs => Some (b ++ bs)
      | _, _ => None
      end
  end.

(** A sequence cut in pieces of [n] elements, the last one shorter:
    what repeated [read(n)] returns. *)
Fixpoint chunked (n fuel : nat) (bs : list N) : list (list N) :=
  match fuel, bs with
  | _, [] => []
  | O, _ => []
  | S fuel', _ => take n bs :: chunked n fuel' (drop n bs)
  end.

Definition chunks (n : nat) (bs : list N) : list (list N) :=
  chunked n (length bs) bs.

(** ** [hashlib.md5] (RFC 1321), on 32-bit words held in [N] *)

Module MD5.

Definition mask32 : N := 0xFFFFFFFF.
Definition add32 (a b : N) : N := N.land (a + b) mask32.
Definition not32 (a : N) : N := N.lxor (N.land a mask32) mask32.
Definition rotl32 (x c : N) : N :=
  N.land (N.lor (N.shiftl x c) (N.shiftr x (32 - c))) mask32.

Definition K : list N :=
  [ 0xd76aa478; 0xe8c7b756; 0x242070db; 0xc1bdceee;
    0xf57c0faf; 0x4787c62a; 0xa8304613; 0xfd469501;
    0x698098d8; 0x8b44f7af; 0xffff5bb1; 0x895cd7be;
    0x6b901122; 0xfd987193; 0xa679438e; 0x49b40821;
    0xf61e2562; 0xc040b340; 0x265e5a51; 0xe9b6c7aa;
    0xd62f105d; 0x02441453; 0xd8a1e681; 0xe7d3fbc8;
    0x21e1cde6; 0xc33707d6; 0xf4d50d87; 0x455a14ed;
    0xa9e3e905; 0xfcefa3f8; 0x676f02d9; 0x8d2a4c8a;
    0xfffa3942; 0x8771f681; 0x6d9d6122; 0xfde5380c;
    0xa4beea44; 0x4bdecfa9; 0xf6bb4b60; 0xbebfbc70;
    0x289b7ec6; 0xeaa127fa; 0xd4ef3085; 0x04881d05;
    0xd9d4d039; 0xe6db99e5; 0x1fa27cf8; 0xc4ac5665;
    0xf4292244; 0x432aff97; 0xab9423a7; 0xfc93a039;
    0x655b59c3; 0x8f0ccc92; 0xffeff47d; 0x85845dd1;
    0x6fa87e4f; 0xfe2ce6e0; 0xa3014314; 0x4e0811a1;
    0xf7537e82; 0xbd3af235; 0x2ad7d2bb; 0xeb86d391 ].

Definition shifts : list N :=
  [ 7; 12; 17; 22; 7; 12; 17; 22; 7; 12; 17; 22; 7; 12; 17; 22;
    5; 9; 14; 20; 5; 9; 14; 20; 5; 9; 14; 20; 5; 9; 14; 20;
    4; 11; 16; 23; 4; 11; 16; 23; 4; 11; 16; 23; 4; 11; 16; 23;
    6; 10; 15; 21; 6; 10; 15; 21; 6; 10; 15; 21; 6; 10; 15; 21 ].

(** The chaining value A, B, C, D. *)
Record state := State { sA : N; sB : N; sC : N; sD : N }.

Definition init : state :=
  State 0x67452301 0xefcdab89 0x98badcfe 0x10325476.

(** Padding: a 1 bit, zeros up to 56 mod 64, the bit length on 64 bits,
    little-endian. *)
Definition le_bytes (n : nat) (w : N) : pybytes :=
  (fun k => N.land (N.shiftr w (8 * N.of_nat k)) 0xFF) <$> seq 0 n.

Definition pad (msg : pybytes) : pybytes :=
  let len := N.of_nat (length msg) in
  let zeros := N.to_nat ((55 + 64 - len mod 64) mod 64) in
  msg ++ [0x80] ++ replicate zeros 0 ++ le_bytes 8 ((8 * len) mod 2 ^ 64).

(** The sixteen little-endian words of a block. *)
Fixpoint words (block : pybytes) : list N :=
  match block with
  | b0 :: b1 :: b2 :: b3 :: rest =>
      (b0 + N.shiftl b1 8 + N.shiftl b2 16 + N.shiftl b3 24) :: words rest
  | _ => []
  end.

Definition round (m : list N) (st : state) (i : nat) : state :=
  let '(State a b c d) := st in
  let '(f, g) :=
    if (i <? 16)%nat then
      (N.lor (N.land b c) (N.land (not32 b) d), i)
    else if (i <? 32)%nat then
      (N.lor (N.land d b) (N.land (not32 d) c), ((5 * i + 1) mod 16)%nat)
    else if (i <? 48)%nat then
      (N.lxor (N.lxor b c) d, ((3 * i + 5) mod 16)%nat)
    else
      (N.lxor c (N.lor b (not32 d)), ((7 * i) mod 16)%nat) in
  let f' := add32 (add32 (add32 f a) (nth i K 0)) (nth g m 0) in
  State d (add32 b (rotl32 f' (nth i shifts 0))) b c.

Definition compress (st : state) (block : pybytes) : state :=
  let st' := foldl (round (words block)) st (seq 0 64) in
  State (add32 (sA st) (sA st')) (add32 (sB st) (sB st'))
        (add32 (sC st) (sC st')) (add32 (sD st) (sD st')).

Definition digest (msg : pybytes) : pybytes :=
  let p := pad msg in
  let st := foldl compress init (chunks 64 p) in
  le_bytes 4 (sA st) ++ le_bytes 4 (sB st) ++
  le_bytes 4 (sC st) ++ le_bytes 4 (sD st).

(** [hexdigest]: two lower-case hexadecimal digits per byte. *)
Definition hex_digit (n : N) : N :=
  if n <? 10 then 48 + n else 87 + n.

Definition hexdigest (msg : pybytes) : pystr :=
  digest msg ≫= (fun b => [hex_digit (b / 16); hex_digit (b mod 16)]).

End MD5.

(** ** [get_cache_id] *)

Definition get_cache_id (query : pystr) : option pystr :=
  MD5.hexdigest <$> encode_utf8 query.

(** ** Strings of the source *)

(** The code points [str.strip()] removes ([str.isspace]). *)
Definition is_space (c : N) : bool :=
  ((0x09 <=? c) && (c <=? 0x0D)) || ((0x1C <=? c) && (c <=? 0x20))
  || (c =? 0x85) || (c =? 0xA0) || (c =? 0x1680)
  || ((0x2000 <=? c) && (c <=? 0x200A))
  || (c =? 0x2028) || (c =? 0x2029) || (c =? 0x202F) || (c =? 0x205F)
  || (c =? 0x3000).

Fixpoint lstrip (s : pystr) : pystr :=
  match s with
  | c :: s' => if is_space c then lstrip s' else s
  | [] => []
  end.

Definition strip (s : pystr) : pystr := reverse (lstrip (reverse (lstrip s))).

Fixpoint startswith (pre s : pystr) : bool :=
  match pre, s with
  | [], _ => true
  | a :: pre', b :: s' => (a =? b) && startswith pre' s'
  | _ :: _, [] => false
  end.

Definition endswith (s suf : pystr) : bool := startswith (reverse suf) (reverse s).

Definition CACHE_DIR : pystr := py "music_cache".

(** ** JSON values and [json.dump] *)

(** A [dict] is kept as its items in insertion order, keys unique.
    Numbers are integers (a float duration is outside the model). *)
Inductive json :=
| JNull
| JBool (b : bool)
| JInt (z : Z)
| JStr (s : pystr)
| JList (l : list json)
| JDict (d : list (pystr * json)).

Abbreviation pydict := (list (pystr * json)).

(** [d[k] = v]: the value is replaced in place when the key is present,
    the item is added at the end otherwise. *)
Fixpoint dict_set (k : pystr) (v : json) (d : pydict) : pydict :=
  match d with
  | [] => [(k, v)]
  | (k', v') :: d' =>
      if decide (k' = k) then (k, v) :: d' else (k', v') :: dict_set k v d'
  end.

Fixpoint dict_get (k : pystr) (d : pydict) : option json :=
  match d with
  | [] => None
  | (k', v') :: d' => if decide (k' = k) then Some v' else dict_get k d'
  end.

Module Json.

Definition hex4 (c : N) : pystr :=
  (fun k => MD5.hex_digit (N.land (N.shiftr c (4 * k)) 0xF)) <$> [3; 2; 1; 0].

(** The encoder's escapes with [ensure_ascii=False]: the quote, the
    backslash and the control characters. *)
Definition escape (c : N) : pystr :=
  if c =? 34 then [92; 34]
  else if c =? 92 then [92; 92]
  else if c =? 10 then [92; 110]
  else if c =? 13 then [92; 114]
  else if c =? 9 then [92; 116]
  else if c =? 8 then [92; 98]
  else if c =? 12 then [92; 102]
  else if c <? 0x20 then [92; 117] ++ hex4 c
  else [c].

Definition quote (s : pystr) : pystr := [34] ++ (s ≫= escape) ++ [34].

Definition int_repr (z : Z) : pystr :=
  py (DecimalString.NilZero.string_of_int (Z.to_int z)).

Definition newline_indent (lvl : nat) : pystr := 10 :: replicate (2 * lvl) 32.

(** [json.dumps(j, ensure_ascii=False, indent=2)], at nesting level [lvl]. *)
Fixpoint dumps_at (lvl : nat) (j : json) : pystr :=
  match j with
  | JNull => py "null"
  | JBool true => py "true"
  | JBool false => py "false"
  | JInt z => int_repr z
  | JStr s => quote s
  | JList [] => py "[]"
  | JList l =>
      py "[" ++
      (fix items (l : list json) : pystr :=
         match l with
         | [] => []
         | x :: l' =>
             newline_indent (S lvl) ++ dumps_at (S lvl) x ++
             match l' with [] => [] | _ => py "," end ++ items l'
         end) l ++
      newline_indent lvl ++ py "]"
  | JDict [] => py "{}"
  | JDict d =>
      py "{" ++
      (fix items (d : pydict) : pystr :=
         match d with
         | [] => []
         | (k, x) :: d' =>
             newline_indent (S lvl) ++ quote k ++ py ": " ++ dumps_at (S lvl) x ++
             match d' with [] => [] | _ => py "," end ++ items d'
         end) d ++
      newline_indent lvl ++ py "}"
  end.

Definition dumps (j : json) : pystr := dumps_at 0 j.

End Json.

(** ** [make_meta_json] *)

Definition make_meta_json (cache_id artist title : pystr) (duration : json)
    (thumbnail : pystr) : pydict :=
  [ (py "artist", JStr artist);
    (py "audio_url", JStr (py "/" ++ CACHE_DIR ++ py "/" ++ cache_id ++ py ".mp3"));
    (py "cover_url", JStr thumbnail);
    (py "duration", duration);
    (py "from_cache", JBool true);
    (py "lyric_url", JStr (py "/" ++ CACHE_DIR ++ py "/" ++ cache_id ++ py ".lrc"));
    (py "title", JStr title) ].

(** ** Paths and the file system *)

(** [s.split(sep)] *)
Fixpoint split_on (sep : N) (s : pystr) : list pystr :=
  match s with
  | [] => [[]]
  | c :: s' =>
      if c =? sep then [] :: split_on sep s'
      else match split_on sep s' with
           | seg :: segs => (c :: seg) :: segs
           | [] => [[c]]
           end
  end.

(** [os.path.join(a, b)] (posixpath, two arguments) *)
Definition path_join (a b : pystr) : pystr :=
  if startswith (py "/") b then b
  else if bool_decide (a = []) || endswith a (py "/") then a ++ b
  else a ++ py "/" ++ b.

(** One component of a path, taken from a directory (no symbolic
    links): empty components and [.] stay there, [..] leaves the directory
    entered last; above the working directory a relative path keeps its
    [..], the root is its own parent.  A location is the absolute flag and
    the components left. *)
Definition walk (absolute : bool) (stack : list pystr) (comp : pystr) : list pystr :=
  if bool_decide (comp = []) || bool_decide (comp = py ".") then stack
  else if bool_decide (comp = py "..") then
    match reverse stack with
    | [] => if absolute then [] else [comp]
    | top :: below =>
        if bool_decide (top = py "..") then stack ++ [comp] else reverse below
    end
  else stack ++ [comp].

Abbreviation rpath := (bool * list (list N))%type.

(** Where a path leads when every directory on the way is there. *)
Definition resolve (p : pystr) : rpath :=
  let absolute := startswith (py "/") p in
  (absolute, foldl (walk absolute) [] (split_on 47 p)).

(** A resolved path lies inside the cache root when it is relative to the
    working directory and enters [music_cache] first. *)
Definition inside_cache (r : rpath) : Prop :=
  ∃ rest, r = (false, CACHE_DIR :: rest).

(** The regular files, by resolved path, with their content. *)
Abbreviation filesystem := (gmap rpath (list N)).

(** [stream_pcm] opens three kinds of paths only, [music_cache/<key>.<ext>],
    the cookie file and its copy: they have no empty, [.] or [..]
    component, their directories are there when the file is, and the files
    above are all it needs to know.  [serve_cache] takes any file name from
    the address, so what it finds depends on the directories too: the
    lookup below goes through them one component at a time. *)

(** The directories that are always there: the root, the working
    directory and the directories above it, and the cache directory, made
    when the module is loaded (line 14). *)
Definition base_dir (r : rpath) : bool :=
  bool_decide (r = (true, []))
  || (negb r.1 && forallb (fun c => bool_decide (c = py "..")) r.2)
  || bool_decide (r = (false, [CACHE_DIR])).

(** A directory that holds a file, at any depth. *)
Definition holds_file (fs : filesystem) (r : rpath) : bool :=
  bool_decide
    (Exists (fun kv : rpath * list N =>
               kv.1.1 = r.1 ∧ r.2 `prefix_of` kv.1.2 ∧ r.2 ≠ kv.1.2)
            (map_to_list fs)).

(** The directories: the empty ones are given by [dirs]. *)
Definition is_dir (dirs : gset rpath) (fs : filesystem) (r : rpath) : bool :=
  base_dir r || bool_decide (r ∈ dirs) || holds_file fs r.

(** One step of the operating system along a path: a component, be it
    empty, [.] or [..], is looked up in a directory; in anything else the
    lookup fails ([ENOENT], [ENOTDIR]). *)
Definition descend (dirs : gset rpath) (fs : filesystem) (absolute : bool)
    (cur : option (list pystr)) (comp : pystr) : option (list pystr) :=
  match cur with
  | Some stack =>
      if is_dir dirs fs (absolute, stack) then Some (walk absolute stack comp) else None
  | None => None
  end.

(** Where the operating system ends up along the path [p], if it gets
    through. *)
Definition locate (dirs : gset rpath) (fs : filesystem) (p : pystr) : option rpath :=
  if bool_decide (p = []) then None
  else
    let absolute := startswith (py "/") p in
    (fun stack => (absolute, stack))
      <$> foldl (descend dirs fs absolute) (Some []) (split_on 47 p).

(** What is at a path: nothing, a directory, or a regular file. *)
Inductive node :=
| NoEntry
| Dir
| File (data : list N).

Definition node_at (dirs : gset rpath) (fs : filesystem) (r : rpath) : node :=
  match fs !! r with
  | Some data => File data
  | None => if is_dir dirs fs r then Dir else NoEntry
  end.

Definition stat (dirs : gset rpath) (fs : filesystem) (p : pystr) : node :=
  match locate dirs fs p with
  | Some r => node_at dirs fs r
  | None => NoEntry
  end.

(** ** Events *)

(** What a request does, in order: the helper and collaborator calls and
    the file operations. *)
Record ydl_opts := { outtmpl_stem : pystr; cookiefile : pystr }.

Inductive event :=
| EvCacheId (query : pystr)
| EvExists (p : pystr)
| EvOpenR (p : pystr)
| EvOpenW (p : pystr)
| EvWrite (p : pystr) (data : list N)
| EvOpenA (p : pystr)
| EvCopy (src dst : pystr)
| EvToolPut (p : pystr) (data : list N)
| EvToolDel (p : pystr)
| EvYoutubeSearch (query : pystr)
| EvExtractInfo (opts : ydl_opts) (url : pystr)
| EvYtmSearch (query : pystr)
| EvYtmGetSong (video_id : pystr)
| EvYtmGetLyrics (browse_id : pystr)
| EvTranscriptFetch (video_id : pystr) (languages : list pystr).

(** The effect of an event on the files. *)
Definition apply_event (ev : event) (fs : filesystem) : filesystem :=
  match ev with
  | EvOpenW p => <[resolve p := []]> fs
  | EvWrite p data => <[resolve p := default [] (fs !! resolve p) ++ data]> fs
  | EvOpenA p =>
      match fs !! resolve p with
      | Some _ => fs
      | None => <[resolve p := []]> fs
      end
  | EvCopy src dst =>
      match fs !! resolve src with
      | Some data => <[resolve dst := data]> fs
      | None => fs
      end
  | EvToolPut p data => <[resolve p := data]> fs
  | EvToolDel p => delete (resolve p) fs
  | _ => fs
  end.

Definition replay (evs : list event) (fs : filesystem) : filesystem :=
  foldl (fun fs ev => apply_event ev fs) fs evs.

(** The calls to the media resolver, the audio fetcher and the two lyric
    sources. *)
Definition is_external (ev : event) : bool :=
  match ev with
  | EvYoutubeSearch _ | EvExtractInfo _ _ | EvYtmSearch _ | EvYtmGetSong _
  | EvYtmGetLyrics _ | EvTranscriptFetch _ _ => true
  | _ => false
  end.

(** The events that create, change or remove a file, with the path. *)
Definition written_path (ev : event) : option pystr :=
  match ev with
  | EvOpenW p | EvWrite p _ | EvOpenA p | EvCopy _ p | EvToolPut p _
  | EvToolDel p => Some p
  | _ => None
  end.

Definition read_path (ev : event) : option pystr :=
  match ev with
  | EvOpenR p | EvCopy p _ => Some p
  | _ => None
  end.

(** ** Exceptions and the handler monad *)

Record exn := Exn { exn_type : pystr; exn_str : pystr }.

Inductive result (A : Type) :=
| Ok (a : A)
| Raise (e : exn).
Arguments Ok {A} a.
Arguments Raise {A} e.

Record world := World { files : filesystem; trace : list event }.

Definition M (A : Type) : Type := world → result A * world.

Definition ret {A} (a : A) : M A := fun w => (Ok a, w).

Definition bind {A B} (m : M A) (f : A → M B) : M B :=
  fun w =>
    match m w with
    | (Ok a, w') => f a w'
    | (Raise e, w') => (Raise e, w')
    end.

Definition raise {A} (e : exn) : M A := fun w => (Raise e, w).

(** [try: m except Exception as e: h e] *)
Definition try_except {A} (m : M A) (h : exn → M A) : M A :=
  fun w =>
    match m w with
    | (Ok a, w') => (Ok a, w')
    | (Raise e, w') => h e w'
    end.

Definition emit (ev : event) : M unit :=
  fun w => (Ok (), World (apply_event ev (files w)) (trace w ++ [ev])).

Definition lift {A} (r : result A) : M A := fun w => (r, w).

Declare Scope handler_scope.
Delimit Scope handler_scope with handler.
Notation "'let*' x ':=' m 'in' k" := (bind m (fun x => k))
  (at level 10, x name, m at level 100, k at level 200) : handler_scope.
Notation "m >> k" := (bind m (fun _ => k))
  (at level 100, k at level 200, right associativity) : handler_scope.
Local Open Scope handler_scope.

(** [os.path.exists(p)], for the paths of [stream_pcm]: no directory
    bears the name of an artifact or of the cookie file. *)
Definition path_exists (p : pystr) : M bool :=
  fun w => (Ok (bool_decide (is_Some (files w !! resolve p))),
            World (files w) (trace w ++ [EvExists p])).

(** [open(p, "r")] and reading the whole file. *)
Definition read_file (p : pystr) : M (list N) :=
  fun w =>
    match files w !! resolve p with
    | Some data => (Ok data, World (files w) (trace w ++ [EvOpenR p]))
    | None => (Raise (Exn (py "FileNotFoundError") p), w)
    end.

(** [with open(p, "w") as f: f.write(text)]: the file is created or
    truncated when it is opened, the text arrives afterwards.  Writes to
    the cache directory succeed: the codec between [str] and the bytes on
    disk, permissions and disk failures are outside the model. *)
Definition write_file (p : pystr) (text : pystr) : M unit :=
  emit (EvOpenW p) >> emit (EvWrite p text).

(** ** The collaborators *)

(** One item of the YouTube search answer, with the fields the handler
    reads: [id.videoId], [snippet.title], [snippet.channelTitle] and
    [snippet.thumbnails.high.url]. *)
Record video := {
  videoId : pystr;
  snippet_title : pystr;
  channelTitle : pystr;
  thumbnail_high_url : pystr
}.

(** What [extract_info] returns: [duration] may be missing. *)
Record info := { info_duration : option json }.

(** The files yt-dlp leaves under [outtmpl], by extension.  The template
    is [music_cache/<id>.%(ext)s]; the extensions are those of audio
    containers and of unfinished downloads. *)
Inductive media_ext := Mp3 | M4a | Webm | Opus | WebmPart | M4aPart.

Definition ext_str (e : media_ext) : pystr :=
  match e with
  | Mp3 => py "mp3"
  | M4a => py "m4a"
  | Webm => py "webm"
  | Opus => py "opus"
  | WebmPart => py "webm.part"
  | M4aPart => py "m4a.part"
  end.

(** What a yt-dlp run does to the files: media files written or removed,
    and the cookie jar saved back. *)
Inductive tool_effect :=
| ToolPut (e : media_ext) (data : list N)
| ToolDel (e : media_ext)
| ToolCookies (data : list N).

(** The YouTube Music answers, with the keys the handler looks up (each
    may be missing). *)
Record ytm_hit := { hit_videoId : option pystr }.
Record lyrics_ref := { browseId : option pystr }.
Record song_info := { song_lyrics : option lyrics_ref }.
Record lyrics_data := { data_lyrics : option pystr }.

(** The outside world of one request: each collaborator answers or
    raises. *)
Record Env := {
  youtube_search : pystr → result (list video);
  can_append : pystr → bool;
  extract_info : ydl_opts → pystr → list tool_effect * result info;
  ytm_search : pystr → result (list ytm_hit);
  ytm_get_song : pystr → result song_info;
  ytm_get_lyrics : pystr → result (option lyrics_data);
  transcript_fetch : pystr → list pystr → result (list pystr)
}.

(** ** Requests and responses *)

Record request := { arg_song : option pystr; arg_artist : option pystr }.

(** A [Response] made from a generator is either read to its end, and
    then it is the pieces the generator yields, or the generator raises
    when the response is read.  In both cases the handler has returned,
    with the status 200. *)
Inductive response :=
| JsonResponse (status : N) (body : json)
| FileResponse (mimetype : pystr) (body : list (list N))
| FailingResponse (mimetype : pystr) (e : exn).

Definition status_of (r : response) : N :=
  match r with
  | JsonResponse status _ => status
  | FileResponse _ _ => 200
  | FailingResponse _ _ => 200
  end.

(** Flask answers an exception that leaves the handler with 500. *)
Definition http_status (r : result response) : N :=
  match r with
  | Ok resp => status_of resp
  | Raise _ => 500
  end.

Definition error_body (msg : pystr) : json := JDict [(py "error", JStr msg)].

(** ** [stream_pcm] *)

Definition call {A} (ev : event) (answer : result A) : M A :=
  emit ev >> lift answer.

Fixpoint emit_all (evs : list event) : M unit :=
  match evs with
  | [] => ret ()
  | ev :: evs' => emit ev >> emit_all evs'
  end.

Definition cache_path (cache_id ext : pystr) : pystr :=
  CACHE_DIR ++ py "/" ++ cache_id ++ py "." ++ ext.

(** Line 79: [outtmpl], up to the extension yt-dlp fills in. *)
Definition stem (cache_id : pystr) : pystr :=
  CACHE_DIR ++ py "/" ++ cache_id ++ py ".".

Definition tool_event (opts : ydl_opts) (eff : tool_effect) : event :=
  match eff with
  | ToolPut e data => EvToolPut (outtmpl_stem opts ++ ext_str e) data
  | ToolDel e => EvToolDel (outtmpl_stem opts ++ ext_str e)
  | ToolCookies data => EvToolPut (cookiefile opts) data
  end.

(** [ydl.extract_info(url, download=True)] *)
Definition ydl_extract_info (env : Env) (opts : ydl_opts) (url : pystr) : M info :=
  let '(effects, answer) := extract_info env opts url in
  emit (EvExtractInfo opts url) >>
  emit_all (tool_event opts <$> effects) >>
  lift answer.

Definition cookie_path : pystr := py "/etc/secrets/cookiesyt.txt".
Definition writable_cookie_path : pystr := py "cookiesyt_writable.txt".

(** [shutil.copy(src, dst)] *)
Definition shutil_copy (src dst : pystr) : M unit :=
  fun w =>
    match files w !! resolve src with
    | Some _ => emit (EvCopy src dst) w
    | None => (Raise (Exn (py "FileNotFoundError") src), w)
    end.

(** Lines 89-96: the cookie file is opened for appending to test that it
    is writable; when that raises it is copied to the working directory
    and the copy is used. *)
Definition writable_cookie_file (env : Env) : M pystr :=
  if can_append env cookie_path then
    emit (EvOpenA cookie_path) >> ret cookie_path
  else
    shutil_copy cookie_path writable_cookie_path >> ret writable_cookie_path.

(** Lines 110-117, the body of the first [try]: the value [lyrics_text]
    has when the body ends. *)
Definition ytm_lyrics (env : Env) (query : pystr) : M pystr :=
  let* search_ytm := call (EvYtmSearch query) (ytm_search env query) in
  match search_ytm with
  | [] => ret []
  | hit :: _ =>
      let* video_id :=
        lift (match hit_videoId hit with
              | Some v => Ok v
              | None => Raise (Exn (py "KeyError") (py "'videoId'"))
              end) in
      let* song_info := call (EvYtmGetSong video_id) (ytm_get_song env video_id) in
      match song_lyrics song_info with
      | Some {| browseId := Some browse_id |} =>
          let* lyrics_data :=
            call (EvYtmGetLyrics browse_id) (ytm_get_lyrics env browse_id) in
          match lyrics_data with
          | Some {| data_lyrics := Some (c :: text) |} => ret (c :: text)
          | _ => ret []
          end
      | _ => ret []
      end
  end.

(** [TextFormatter().format_transcript]: the snippet texts, one per line. *)
Fixpoint format_transcript (snippets : list pystr) : pystr :=
  match snippets with
  | [] => []
  | [s] => s
  | s :: rest => s ++ [10] ++ format_transcript rest
  end.

Definition transcript_languages : list pystr := [py "vi"; py "en"].

(** Lines 123-125, the body of the second [try]. *)
Definition transcript_lyrics (env : Env) (video_id : pystr) : M pystr :=
  let* transcript :=
    call (EvTranscriptFetch video_id transcript_languages)
         (transcript_fetch env video_id transcript_languages) in
  ret (format_transcript transcript).

(** Lines 108-127: the lyric stage. *)
Definition fetch_lyrics (env : Env) (query video_id : pystr) : M pystr :=
  let* lyrics_text := try_except (ytm_lyrics env query) (fun _ => ret []) in
  if bool_decide (lyrics_text = []) then
    try_except (transcript_lyrics env video_id) (fun _ => ret [])
  else ret lyrics_text.

Section Handlers.

(** [json.load] on the text of a file: the document, or an exception.
    The parser is the standard library's. *)
Variable json_load : pystr → result json.

(** Lines 53-57: the cached answer. *)
Definition cached_response (meta_path : pystr) : M response :=
  let* text := read_file meta_path in
  let* data := lift (json_load text) in
  match data with
  | JDict d => ret (JsonResponse 200 (JDict (dict_set (py "from_cache") (JBool true) d)))
  | _ => raise (Exn (py "TypeError") (py "object does not support item assignment"))
  end.

(** Lines 129-138: the lyric file, then the metadata file, then the
    answer. *)
Definition persist (cache_id lyrics_text : pystr) (v : video) (duration : json) : M response :=
  write_file (cache_path cache_id (py "lrc")) lyrics_text >>
  let data :=
    make_meta_json cache_id (channelTitle v) (snippet_title v) duration
                   (thumbnail_high_url v) in
  write_file (cache_path cache_id (py "json")) (Json.dumps (JDict data)) >>
  ret (JsonResponse 200 (JDict data)).

(** Lines 59-138: the path taken when the metadata file is absent. *)
Definition resolve_and_fetch (env : Env) (query cache_id : pystr) : M response :=
  let* items := call (EvYoutubeSearch query) (youtube_search env query) in
  match items with
  | [] => ret (JsonResponse 404 (error_body (py "No video found")))
  | v :: _ =>
      let* cookie_file := writable_cookie_file env in
      let opts := {| outtmpl_stem := stem cache_id; cookiefile := cookie_file |} in
      let url := py "https://www.youtube.com/watch?v=" ++ videoId v in
      let* downloaded :=
        try_except
          (let* i := ydl_extract_info env opts url in
           ret (Ok (default (JInt 0) (info_duration i))))
          (fun e => ret (Raise e)) in
      match downloaded with
      | Raise e =>
          ret (JsonResponse 500 (error_body (py "Download failed: " ++ exn_str e)))
      | Ok duration =>
          let* lyrics_text := fetch_lyrics env query (videoId v) in
          persist cache_id lyrics_text v duration
      end
  end.

(** Line 46: [f"{song} {artist}".strip()] *)
Definition query_of (song artist : pystr) : pystr :=
  strip (song ++ py " " ++ artist).

Definition stream_pcm (env : Env) (req : request) : M response :=
  let artist := default [] (arg_artist req) in
  match arg_song req with
  | None | Some [] => ret (JsonResponse 400 (error_body (py "Missing song")))
  | Some song =>
      let query := query_of song artist in
      let* cache_id :=
        call (EvCacheId query)
             (match get_cache_id query with
              | Some k => Ok k
              | None => Raise (Exn (py "UnicodeEncodeError") (py "surrogates not allowed"))
              end) in
      let meta_path := cache_path cache_id (py "json") in
      let* cached := path_exists meta_path in
      if cached then cached_response meta_path
      else resolve_and_fetch env query cache_id
  end.

(** ** [serve_cache] *)

Definition mimetype_of (filename : pystr) : pystr :=
  if endswith filename (py ".mp3") then py "audio/mpeg"
  else if endswith filename (py ".lrc") || endswith filename (py ".txt") then
    py "text/plain; charset=utf-8"
  else if endswith filename (py ".json") then py "application/json"
  else py "application/octet-stream".

(** [os.path.exists(p)] for any path: true for a file and for a
    directory. *)
Definition os_path_exists (dirs : gset rpath) (p : pystr) : M bool :=
  fun w =>
    (Ok (match stat dirs (files w) p with NoEntry => false | _ => true end),
     World (files w) (trace w ++ [EvExists p])).

(** Lines 158-161: what the generator does when the response is read:
    [open(p, "rb")], then [read(4096)] until the end. *)
Definition generate (dirs : gset rpath) (p : pystr) : M (list (list N)) :=
  fun w =>
    match stat dirs (files w) p with
    | File data => (Ok (chunks 4096 data), World (files w) (trace w ++ [EvOpenR p]))
    | Dir => (Raise (Exn (py "IsADirectoryError") p), w)
    | NoEntry => (Raise (Exn (py "FileNotFoundError") p), w)
    end.

(** Line 162: [Response(stream_with_context(g), mimetype=m)].  The
    handler returns the response before the generator runs; the generator
    runs when the response is read, in the same request. *)
Definition stream_response (mimetype : pystr) (g : M (list (list N))) : M response :=
  fun w =>
    match g w with
    | (Ok body, w') => (Ok (FileResponse mimetype body), w')
    | (Raise e, w') => (Ok (FailingResponse mimetype e), w')
    end.

(** The directories [dirs] are those of the time of the request;
    [serve_cache] makes none and removes none. *)
Definition serve_cache (dirs : gset rpath) (filename : pystr) : M response :=
  let full_path := path_join CACHE_DIR filename in
  let* found := os_path_exists dirs full_path in
  if negb found then ret (JsonResponse 404 (error_body (py "file not found")))
  else
    let mimetype := mimetype_of filename in
    stream_response mimetype (generate dirs full_path).

End Handlers.

(** Line 142: the route [/music_cache/<path:filename>].  The [path]
    converter takes what follows the prefix when it is not empty and does
    not start with a slash. *)
Definition cache_route (path : pystr) : option pystr :=
  let prefix := py "/" ++ CACHE_DIR ++ py "/" in
  if startswith prefix path then
    match drop (length prefix) path with
    | [] => None
    | c :: rest => if c =? 47 then None else Some (c :: rest)
    end
  else None.

(** A request handled from the files [fs], with an empty trace. *)
Definition run {A} (m : M A) (fs : filesystem) : result A * world :=
  m (World fs []).

(** * The vocabulary of the properties *)

(** A lower-case hexadecimal digit: [0-9] or [a-f]. *)
Definition is_hex (c : N) : Prop := (48 ≤ c ≤ 57) ∨ (97 ≤ c ≤ 102).

(** A key: thirty-two hexadecimal digits, the text of 128 bits. *)
Definition is_key (k : pystr) : Prop := length k = 32%nat ∧ Forall is_hex k.

(** [scalar_value], as a test. *)
Definition scalar_valueb (c : N) : bool := (c <? 0x110000) && negb (is_surrogate c).

(** A file name: one path component that names an entry. *)
Definition plain_name (name : pystr) : Prop :=
  (47 ∉ name) ∧ name ≠ [] ∧ name ≠ py "." ∧ name ≠ py "..".

(** The world after the events [evs]. *)
Definition advance (w : world) (evs : list event) : world :=
  World (replay evs (files w)) (trace w ++ evs).

(** [m], started in [w], ends with [r] after the events [evs]. *)
Definition runs {A} (m : M A) (w : world) (r : result A) (evs : list event) : Prop :=
  m w = (r, advance w evs).

(** The calls to the two lyric sources, and those to the second one. *)
Definition is_lyric_call (ev : event) : bool :=
  match ev with
  | EvYtmSearch _ | EvYtmGetSong _ | EvYtmGetLyrics _ | EvTranscriptFetch _ _ => true
  | _ => false
  end.

Definition is_transcript_call (ev : event) : bool :=
  match ev with
  | EvTranscriptFetch _ _ => true
  | _ => false
  end.

(** No file, no event yet. *)
Definition start_world : world := World ∅ [].

(** What the primary lyric source yields: its text when there is some,
    [None] when it has none or raises. *)
Definition primary_text (env : Env) (query : pystr) : option pystr :=
  match fst (ytm_lyrics env query start_world) with
  | Ok (c :: text) => Some (c :: text)
  | _ => None
  end.

(** What YouTube Music holds for a query, read off the answers of the
    service and not off the handler: the lyrics of the first song the
    search finds, when that song has a video id, its entry has lyrics with
    a browse id, and the lyrics under that id are a text that is not
    empty.  [None] when one of the three calls raises or has nothing. *)
Definition primary_lyrics (env : Env) (query : pystr) : option pystr :=
  match ytm_search env query with
  | Ok (hit :: _) =>
      video_id ← hit_videoId hit;
      match ytm_get_song env video_id with
      | Ok song =>
          ref ← song_lyrics song;
          browse_id ← browseId ref;
          match ytm_get_lyrics env browse_id with
          | Ok (Some data) =>
              match data_lyrics data with
              | Some (c :: text) => Some (c :: text)
              | _ => None
              end
          | _ => None
          end
      | Raise _ => None
      end
  | _ => None
  end.

(** What the transcript source yields: the formatted transcript, or the
    empty string when it raises. *)
Definition transcript_text (env : Env) (video_id : pystr) : pystr :=
  match transcript_fetch env video_id transcript_languages with
  | Ok transcript => format_transcript transcript
  | Raise _ => []
  end.

(** The lyrics the lyric stage settles on, and the calls it makes. *)
Definition lyric_stage (env : Env) (q video_id lyrics : pystr) (levs : list event) : Prop :=
  Forall (fun ev => is_lyric_call ev = true) levs
  ∧ head levs = Some (EvYtmSearch q)
  ∧ match primary_text env q with
    | Some text =>
        lyrics = text ∧ Forall (fun ev => is_transcript_call ev = false) levs
    | None =>
        lyrics = transcript_text env video_id
        ∧ last levs = Some (EvTranscriptFetch video_id transcript_languages)
    end.

(** The events of the resolve and fetch stages of a run for key [k]. *)
Inductive fetch_event (k : pystr) : event → Prop :=
| FetchSearch q : fetch_event k (EvYoutubeSearch q)
| FetchOpenA : fetch_event k (EvOpenA cookie_path)
| FetchCopy : fetch_event k (EvCopy cookie_path writable_cookie_path)
| FetchExtract opts url : fetch_event k (EvExtractInfo opts url)
| FetchPut e data : fetch_event k (EvToolPut (cache_path k (ext_str e)) data)
| FetchDel e : fetch_event k (EvToolDel (cache_path k (ext_str e)))
| FetchCookies c data :
    c = cookie_path ∨ c = writable_cookie_path → fetch_event k (EvToolPut c data).

(** What the persist stage does: the lyric file, then the metadata file. *)
Definition persist_events (k lyrics : pystr) (data : pydict) : list event :=
  [ EvOpenW (cache_path k (py "lrc")); EvWrite (cache_path k (py "lrc")) lyrics;
    EvOpenW (cache_path k (py "json"));
    EvWrite (cache_path k (py "json")) (Json.dumps (JDict data)) ].

(** The record of line 134, from the video found and the duration. *)
Definition meta_of (k : pystr) (v : video) (duration : json) : pydict :=
  make_meta_json k (channelTitle v) (snippet_title v) duration (thumbnail_high_url v).

(** How a run that misses the cache can end before anything is kept. *)
Inductive fetch_failure (env : Env) (q : pystr) : result response → Prop :=
| SearchRaised e :
    youtube_search env q = Raise e → fetch_failure env q (Raise e)
| NoVideo :
    youtube_search env q = Ok [] →
    fetch_failure env q (Ok (JsonResponse 404 (error_body (py "No video found"))))
| CookieMissing v rest e :
    youtube_search env q = Ok (v :: rest) → fetch_failure env q (Raise e)
| DownloadFailed v rest e :
    youtube_search env q = Ok (v :: rest) →
    fetch_failure env q
      (Ok (JsonResponse 500 (error_body (py "Download failed: " ++ exn_str e)))).

(** The two ways [resolve_and_fetch] ends. *)
Inductive fetched (env : Env) (q k : pystr) : result response → list event → Prop :=
| FetchFailed r pre :
    fetch_failure env q r →
    Forall (fetch_event k) pre →
    head pre = Some (EvYoutubeSearch q) →
    fetched env q k r pre
| FetchDone v rest duration lyrics pre levs :
    youtube_search env q = Ok (v :: rest) →
    Forall (fetch_event k) pre →
    head pre = Some (EvYoutubeSearch q) →
    lyric_stage env q (videoId v) lyrics levs →
    fetched env q k
      (Ok (JsonResponse 200 (JDict (meta_of k v duration))))
      (pre ++ levs ++ persist_events k lyrics (meta_of k v duration)).

(** The query a request asks for; none when [song] is absent or empty. *)
Definition request_query (req : request) : option pystr :=
  match arg_song req with
  | None | Some [] => None
  | Some song => Some (query_of song (default [] (arg_artist req)))
  end.

(** Lines 49-50: the lyric and metadata files of a key. *)
Definition meta_path (k : pystr) : pystr := cache_path k (py "json").
Definition lrc_path (k : pystr) : pystr := cache_path k (py "lrc").

Section Outcomes.
Variable json_load : pystr → result json.

(** The answer from a metadata file holding [text]. *)
Inductive cached (text : pystr) : result response → Prop :=
| CachedRecord d :
    json_load text = Ok (JDict d) →
    cached text (Ok (JsonResponse 200 (JDict (dict_set (py "from_cache") (JBool true) d))))
| CachedBroken e :
    (∀ d, json_load text ≠ Ok (JDict d)) → cached text (Raise e).

(** Every run of [stream_pcm] from the files [fs] is one of these, with
    its answer and its events in order. *)
Inductive outcome (env : Env) (req : request) (fs : filesystem) :
    result response → list event → Prop :=
| MissingSong :
    request_query req = None →
    outcome env req fs (Ok (JsonResponse 400 (error_body (py "Missing song")))) []
| NoKey q e :
    request_query req = Some q →
    get_cache_id q = None →
    outcome env req fs (Raise e) [EvCacheId q]
| CacheHit q k text r :
    request_query req = Some q →
    get_cache_id q = Some k →
    fs !! resolve (meta_path k) = Some text →
    cached text r →
    outcome env req fs r [EvCacheId q; EvExists (meta_path k); EvOpenR (meta_path k)]
| CacheMiss q k r evs :
    request_query req = Some q →
    get_cache_id q = Some k →
    fs !! resolve (meta_path k) = None →
    fetched env q k r evs →
    outcome env req fs r ([EvCacheId q; EvExists (meta_path k)] ++ evs).

End Outcomes.

(** The lyric and metadata artifacts of the keys. *)
Definition artifact_ext (ext : pystr) : Prop := ext = py "json" ∨ ext = py "lrc".

(** An event is quiet when it leaves every lyric and metadata artifact as
    it is. *)
Definition quiet (ev : event) : Prop :=
  ∀ fs k ext, is_key k → artifact_ext ext →
    apply_event ev fs !! resolve (cache_path k ext) = fs !! resolve (cache_path k ext).

(** The events that open a file for writing. *)
Definition is_open_w (ev : event) : bool :=
  match ev with
  | EvOpenW _ => true
  | _ => false
  end.

(** The events before the persist stage: quiet, and none opens a file for
    writing. *)
Definition stage_event (ev : event) : Prop := quiet ev ∧ is_open_w ev = false.

(** The run ended by the persist stage of key [k]. *)
Definition persisted (env : Env) (req : request) (fs : filesystem)
    (r : result response) (k lyrics : pystr) (data : pydict) : Prop :=
  ∃ q v rest duration,
    request_query req = Some q ∧ get_cache_id q = Some k
    ∧ fs !! resolve (meta_path k) = None
    ∧ youtube_search env q = Ok (v :: rest)
    ∧ data = meta_of k v duration
    ∧ r = Ok (JsonResponse 200 (JDict data)).

(** The files hold the lyrics of every key whose metadata they hold. *)
Definition lyrics_before_metadata (fs : filesystem) : Prop :=
  ∀ k, is_key k →
    is_Some (fs !! resolve (meta_path k)) → is_Some (fs !! resolve (lrc_path k)).

(** An event keeps the artifacts when none that exists disappears. *)
Definition keeps (ev : event) : Prop :=
  ∀ fs k ext, is_key k → artifact_ext ext →
    is_Some (fs !! resolve (cache_path k ext)) →
    is_Some (apply_event ev fs !! resolve (cache_path k ext)).

(** A run reaches the lyric stage when it calls a lyric source. *)
Definition reaches_lyric_stage (tr : list event) : Prop :=
  ∃ ev, ev ∈ tr ∧ is_lyric_call ev = true.

(** An event is off the key [k] when it leaves every file of that key in
    the cache directory as it is. *)
Definition off_key (k : pystr) (ev : event) : Prop :=
  ∀ fs ext, 47 ∉ ext →
    apply_event ev fs !! resolve (cache_path k ext) = fs !! resolve (cache_path k ext).

(** Lines 89-99: the cookie file given to yt-dlp and the event that
    settles it, when there is one: the file itself when it can be opened
    for appending, its copy in the working directory otherwise. *)
Definition cookie_used (env : Env) (fs : filesystem) (c : pystr) (cev : event) : Prop :=
  (can_append env cookie_path = true ∧ c = cookie_path ∧ cev = EvOpenA cookie_path)
  ∨ (can_append env cookie_path = false ∧ is_Some (fs !! resolve cookie_path)
     ∧ c = writable_cookie_path ∧ cev = EvCopy cookie_path writable_cookie_path).

(** Lines 77-88 and 99: the options of the download of key [k] with the
    cookie file [c]; line 103: the address of the video. *)
Definition download_opts (k c : pystr) : ydl_opts :=
  {| outtmpl_stem := CACHE_DIR ++ py "/" ++ k ++ py "."; cookiefile := c |}.

Definition watch_url (v : video) : pystr :=
  py "https://www.youtube.com/watch?v=" ++ videoId v.

(** What yt-dlp answers to that download, and the events of the call. *)
Definition download_answer (env : Env) (k c : pystr) (v : video) : result info :=
  snd (extract_info env (download_opts k c) (watch_url v)).

Definition download_events (env : Env) (k c : pystr) (v : video) : list event :=
  EvExtractInfo (download_opts k c) (watch_url v)
  :: (tool_event (download_opts k c)
        <$> fst (extract_info env (download_opts k c) (watch_url v))).

Definition is_download (ev : event) : bool :=
  match ev with
  | EvExtractInfo _ _ => true
  | _ => false
  end.

(** * Scenarios *)

Module Scenario.

Definition the_video : video :=
  {| videoId := py "JGwWNGJdvx8";
     snippet_title := py "Shape of You";
     channelTitle := py "Ed Sheeran";
     thumbnail_high_url := py "https://i.ytimg.com/vi/JGwWNGJdvx8/hqdefault.jpg" |}.

Definition boom : exn := Exn (py "Exception") (py "boom").

(** A world built from the answers of the five services. *)
Definition make_env (found : result (list video))
    (download : list tool_effect * result info)
    (hits : result (list ytm_hit)) (transcript : result (list pystr)) : Env :=
  {| youtube_search := fun _ => found;
     can_append := fun _ => true;
     extract_info := fun _ _ => download;
     ytm_search := fun _ => hits;
     ytm_get_song := fun _ => Ok {| song_lyrics := Some {| browseId := Some (py "MPLYt_1") |} |};
     ytm_get_lyrics := fun _ => Ok (Some {| data_lyrics := Some (py "The club") |});
     transcript_fetch := fun _ _ => transcript |}.

Definition download_ok : list tool_effect * result info :=
  ([ToolPut Webm [1]; ToolPut Mp3 [2]; ToolDel Webm],
   Ok {| info_duration := Some (JInt 233) |}).

(** Every service answers; YouTube Music has the lyrics. *)
Definition env : Env :=
  make_env (Ok [the_video]) download_ok
           (Ok [ {| hit_videoId := Some (py "ytm_1") |} ]) (Ok [py "la"; py "li"]).

(** YouTube Music raises; the transcript is there. *)
Definition env_ytm_down : Env :=
  make_env (Ok [the_video]) download_ok (Raise boom) (Ok [py "la"; py "li"]).

(** Both lyric sources raise. *)
Definition env_no_lyrics : Env :=
  make_env (Ok [the_video]) download_ok (Raise boom) (Raise boom).

(** The search finds nothing. *)
Definition env_no_video : Env :=
  make_env (Ok []) download_ok (Raise boom) (Raise boom).

(** The download raises, leaving an unfinished file. *)
Definition env_download_fails : Env :=
  make_env (Ok [the_video]) ([ToolPut WebmPart [1]], Raise boom)
           (Raise boom) (Raise boom).

(** The search raises. *)
Definition env_search_down : Env :=
  make_env (Raise boom) download_ok (Raise boom) (Raise boom).

(** Every service answers, and the cookie file cannot be opened for
    appending. *)
Definition env_cookie_locked : Env :=
  {| youtube_search := youtube_search env;
     can_append := fun _ => false;
     extract_info := extract_info env;
     ytm_search := ytm_search env;
     ytm_get_song := ytm_get_song env;
     ytm_get_lyrics := ytm_get_lyrics env;
     transcript_fetch := transcript_fetch env |}.

(** The files when only the cookie file is there. *)
Definition cookie_fs : filesystem := <[resolve cookie_path := py "# Netscape"]> ∅.

Definition req : request :=
  {| arg_song := Some (py "Shape of You"); arg_artist := Some (py "Ed Sheeran") |}.

Definition query : pystr := py "Shape of You Ed Sheeran".
Definition key : pystr := py "9b0fff41d91f894fbb03b584575b8664".

Definition record : pydict := meta_of key the_video (JInt 233).

(** A cache that holds the entry of [key]. *)
Definition cached_fs : filesystem :=
  <[resolve (meta_path key) := Json.dumps (JDict record)]>
    (<[resolve (lrc_path key) := py "The club"]> ∅).

(** [json.load], on the one document of the scenario. *)
Definition json_load (text : pystr) : result json :=
  if bool_decide (text = Json.dumps (JDict record)) then Ok (JDict record)
  else Raise (Exn (py "JSONDecodeError") (py "Expecting value")).

End Scenario.

Module Runs.
Import Scenario.

(** The request on an empty cache, every service answering. *)
Definition fresh : result response * world :=
  run (stream_pcm json_load env req) ∅.

(** The request again, on the cache the first run left. *)
Definition again : result response * world :=
  run (stream_pcm json_load env req) cached_fs.

(** The request when the search finds nothing. *)
Definition not_found : result response * world :=
  run (stream_pcm json_load env_no_video req) ∅.

(** The request when YouTube Music raises and the transcript is there. *)
Definition ytm_down : result response * world :=
  run (stream_pcm json_load env_ytm_down req) ∅.

(** The request when both lyric sources raise. *)
Definition no_lyrics : result response * world :=
  run (stream_pcm json_load env_no_lyrics req) ∅.

(** The request when the download raises. *)
Definition download_failed : result response * world :=
  run (stream_pcm json_load env_download_fails req) ∅.

(** A request without [song]. *)
Definition no_song : result response * world :=
  run (stream_pcm json_load env {| arg_song := None; arg_artist := None |}) ∅.

(** The lyric file of the entry, asked from [serve_cache]. *)
Definition lrc_name : pystr := key ++ py ".lrc".
Definition served : result response * world := run (serve_cache ∅ lrc_name) cached_fs.

(** The request on a cache whose metadata file was left empty. *)
Definition broken_fs : filesystem := <[resolve (meta_path key) := []]> ∅.
Definition broken : result response * world :=
  run (stream_pcm json_load env req) broken_fs.

(** The request again after [fresh], the services now down. *)
Definition after_fresh : result response * world :=
  run (stream_pcm json_load env_no_video req) (files (snd fresh)).

(** A request whose [song] is two spaces. *)
Definition blank_req : request := {| arg_song := Some (py "  "); arg_artist := None |}.
Definition blank : result response * world :=
  run (stream_pcm json_load env_no_video blank_req) ∅.

(** Names that are not those of a file: the cache directory itself, a
    way through a directory that is not there, the same way through one
    that is, and a file taken for a directory. *)
Definition dot : result response * world := run (serve_cache ∅ (py ".")) cached_fs.
Definition through_nothing : result response * world :=
  run (serve_cache ∅ (py "sub/../" ++ lrc_name)) cached_fs.
Definition through_sub : result response * world :=
  run (serve_cache {[ (false, [CACHE_DIR; py "sub"]) ]} (py "sub/../" ++ lrc_name))
      cached_fs.
Definition under_a_file : result response * world :=
  run (serve_cache ∅ (lrc_name ++ py "/")) cached_fs.

(** A file next to the cache directory, and the name that reaches it. *)
Definition outside_fs : filesystem :=
  <[resolve (py "music_server.py") := py "import os"]> ∅.
Definition escaping_name : pystr := py "../music_server.py".
Definition escaped : result response * world :=
  run (serve_cache ∅ escaping_name) outside_fs.

(** The request when the search raises. *)
Definition search_down : result response * world :=
  run (stream_pcm json_load env_search_down req) ∅.

(** The request when the cookie file is neither writable nor there. *)
Definition cookie_missing : result response * world :=
  run (stream_pcm json_load env_cookie_locked req) ∅.

(** The request when the cookie file is there and not writable. *)
Definition cookie_copied : result response * world :=
  run (stream_pcm json_load env_cookie_locked req) cookie_fs.

(** The lyric file the answer of [fresh] points to, asked from
    [serve_cache] on the files [fresh] left. *)
Definition fresh_lyrics : result response * world :=
  run (serve_cache ∅ lrc_name) (files (snd fresh)).

End Runs.

(** * Properties *)

Arguments py : simpl never.
Arguments CACHE_DIR : simpl never.
Arguments cache_path : simpl never.
Arguments stem : simpl never.
Arguments cookie_path : simpl never.
Arguments writable_cookie_path : simpl never.
Arguments resolve : simpl never.
Arguments query_of : simpl never.
Arguments get_cache_id : simpl never.
Arguments make_meta_json : simpl never.
Arguments Json.dumps : simpl never.

(** ** Cache keys *)

Example md5_empty : get_cache_id (py "") = Some (py "d41d8cd98f00b204e9800998ecf8427e").
Proof. vm_compute. reflexivity. Qed.

Example md5_abc : get_cache_id (py "abc") = Some (py "900150983cd24fb0d6963f7d28e17f72").
Proof. vm_compute. reflexivity. Qed.

Example md5_shape :
  get_cache_id (py "Shape of You Ed Sheeran") = Some (py "9b0fff41d91f894fbb03b584575b8664").
Proof. vm_compute. reflexivity. Qed.

Example md5_a64 :
  get_cache_id (replicate 64 97) = Some (py "014842d480b571495a4a0363793f7367").
Proof. vm_compute. reflexivity. Qed.

Example md5_a56 :
  get_cache_id (replicate 56 97) = Some (py "3b0c8ac703f828b04c6c197006d17218").
Proof. vm_compute. reflexivity. Qed.

Example md5_e_acute :
  get_cache_id [0xE9] = Some (py "66ddcd97cfdeabb2f6fb8a999b4bc76f").
Proof. vm_compute. reflexivity. Qed.

Lemma hex_digit_is_hex n : n < 16 → is_hex (MD5.hex_digit n).
Proof.
  intros Hn. unfold MD5.hex_digit, is_hex.
  destruct (N.ltb_spec n 10); lia.
Qed.

Lemma le_bytes_length n w : length (MD5.le_bytes n w) = n.
Proof. unfold MD5.le_bytes. by rewrite length_fmap, length_seq. Qed.

Lemma le_bytes_small n w : Forall (fun b => b < 256) (MD5.le_bytes n w).
Proof.
  unfold MD5.le_bytes. apply Forall_fmap, Forall_forall. intros k _. simpl.
  change 255 with (N.ones 8). rewrite N.land_ones.
  apply N.mod_lt. done.
Qed.

Lemma digest_length msg : length (MD5.digest msg) = 16%nat.
Proof. unfold MD5.digest. cbv zeta. by rewrite !length_app, !le_bytes_length. Qed.

Lemma digest_small msg : Forall (fun b => b < 256) (MD5.digest msg).
Proof. unfold MD5.digest. cbv zeta. rewrite !Forall_app. auto using le_bytes_small. Qed.

Lemma hex_pairs_length (bs : pybytes) :
  length (bs ≫= (fun b => [MD5.hex_digit (b / 16); MD5.hex_digit (b mod 16)]))
  = (2 * length bs)%nat.
Proof. induction bs as [|b bs IH]; [done|]. cbn. rewrite IH. lia. Qed.

Lemma hex_pairs_hex (bs : pybytes) :
  Forall (fun b => b < 256) bs →
  Forall is_hex (bs ≫= (fun b => [MD5.hex_digit (b / 16); MD5.hex_digit (b mod 16)])).
Proof.
  induction 1 as [|b bs Hb _ IH]; [constructor|].
  cbn. apply Forall_cons; split; [|apply Forall_cons; split; [|exact IH]].
  - apply hex_digit_is_hex. apply N.Div0.div_lt_upper_bound. lia.
  - apply hex_digit_is_hex. apply N.mod_lt. done.
Qed.

Lemma hexdigest_is_key msg : is_key (MD5.hexdigest msg).
Proof.
  split.
  - unfold MD5.hexdigest. by rewrite hex_pairs_length, digest_length.
  - apply hex_pairs_hex, digest_small.
Qed.

Lemma get_cache_id_is_key q k : get_cache_id q = Some k → is_key k.
Proof.
  unfold get_cache_id. destruct (encode_utf8 q); [|done].
  intros [= <-]. apply hexdigest_is_key.
Qed.

Lemma utf8_char_scalar c : scalar_value c → is_Some (utf8_char c).
Proof.
  intros [Hc Hs]. unfold utf8_char. rewrite Hs.
  repeat case_match; eauto.
  apply N.ltb_ge in H2. lia.
Qed.

Lemma utf8_text_check q : forallb scalar_valueb q = true → utf8_text q.
Proof.
  intros H. apply Forall_forall. intros c Hc.
  rewrite forallb_forall in H. specialize (H c (proj1 (list_elem_of_In _ _) Hc)).
  unfold scalar_valueb in H. apply andb_true_iff in H as [H1 H2].
  split; [by apply N.ltb_lt|by apply negb_true_iff].
Qed.

Lemma encode_utf8_text q : utf8_text q → is_Some (encode_utf8 q).
Proof.
  induction 1 as [|c q Hc _ [bs IH]]; [by eexists|].
  destruct (utf8_char_scalar c Hc) as [b Hb].
  simpl. rewrite Hb, IH. by eexists.
Qed.

(** ** Paths *)

Lemma split_on_no_sep sep s : sep ∉ s → split_on sep s = [s].
Proof.
  induction s as [|c s IH]; [done|].
  intros Hs. apply not_elem_of_cons in Hs as [Hc Hs].
  simpl. rewrite IH by done.
  destruct (N.eqb_spec c sep); [congruence|done].
Qed.

Lemma split_on_app sep a rest :
  sep ∉ a → split_on sep (a ++ sep :: rest) = a :: split_on sep rest.
Proof.
  induction a as [|c a IH]; intros Ha.
  - simpl. by rewrite N.eqb_refl.
  - apply not_elem_of_cons in Ha as [Hc Ha].
    simpl. rewrite IH by done.
    destruct (N.eqb_spec c sep); [congruence|done].
Qed.

Lemma cache_dir_no_slash : 47 ∉ CACHE_DIR.
Proof. vm_compute. intros H. repeat (apply elem_of_cons in H as [H|H]; [done|]). by apply elem_of_nil in H. Qed.

Lemma cache_dir_plain : plain_name CACHE_DIR.
Proof.
  split; [apply cache_dir_no_slash|].
  repeat split; intros H; vm_compute in H; discriminate.
Qed.

Lemma walk_plain absolute stack name :
  plain_name name → walk absolute stack name = stack ++ [name].
Proof.
  intros (_ & H1 & H2 & H3). unfold walk.
  by rewrite !bool_decide_eq_false_2.
Qed.

Lemma resolve_in_cache name :
  plain_name name → resolve (CACHE_DIR ++ py "/" ++ name) = (false, [CACHE_DIR; name]).
Proof.
  intros Hname. unfold resolve. f_equal.
  change (py "/" ++ name) with (47 :: name).
  rewrite split_on_app by apply cache_dir_no_slash.
  rewrite split_on_no_sep by apply Hname.
  simpl. rewrite (walk_plain _ _ name) by done.
  by rewrite walk_plain by apply cache_dir_plain.
Qed.

Lemma key_no_slash k : is_key k → 47 ∉ k.
Proof.
  intros [_ Hk] Hin. rewrite Forall_forall in Hk.
  destruct (Hk _ Hin); lia.
Qed.

Lemma artifact_plain k ext : is_key k → 47 ∉ ext → plain_name (k ++ py "." ++ ext).
Proof.
  intros Hk Hext. pose proof (key_no_slash k Hk) as Hslash.
  destruct Hk as [Hlen Hhex].
  destruct k as [|c k]; [done|].
  apply Forall_cons in Hhex as [Hc _].
  repeat split.
  - rewrite !elem_of_app. intros [?|[H|?]]; [done| |done].
    vm_compute in H. apply list_elem_of_singleton in H. done.
  - done.
  - intros [= -> _]. destruct Hc; lia.
  - intros [= -> _]. destruct Hc; lia.
Qed.

Lemma resolve_cache_path k ext :
  is_key k → 47 ∉ ext →
  resolve (cache_path k ext) = (false, [CACHE_DIR; k ++ py "." ++ ext]).
Proof. intros. unfold cache_path. by apply resolve_in_cache, artifact_plain. Qed.

Lemma cache_path_inj k1 k2 e1 e2 :
  is_key k1 → is_key k2 → 47 ∉ e1 → 47 ∉ e2 →
  resolve (cache_path k1 e1) = resolve (cache_path k2 e2) → k1 = k2 ∧ e1 = e2.
Proof.
  intros H1 H2 He1 He2. rewrite !resolve_cache_path by done.
  intros [= H]. apply app_inj_1 in H as [-> H]; [|by rewrite (proj1 H1), (proj1 H2)].
  by injection H.
Qed.

(** Without [..], the walk only descends. *)
Lemma walk_descends absolute comps stack :
  py ".." ∉ comps → ∃ more, foldl (walk absolute) stack comps = stack ++ more.
Proof.
  revert stack. induction comps as [|c comps IH]; intros stack Hc.
  - exists []. by rewrite app_nil_r.
  - apply not_elem_of_cons in Hc as [Hc Hcs]. simpl.
    assert (walk absolute stack c = stack ∨ walk absolute stack c = stack ++ [c]) as [->| ->].
    { unfold walk. rewrite (bool_decide_eq_false_2 (c = py "..")) by done.
      destruct (_ || _); auto. }
    + by apply IH.
    + destruct (IH (stack ++ [c]) Hcs) as [more ->].
      exists (c :: more). by rewrite <- app_assoc.
Qed.

Lemma path_join_relative filename :
  startswith (py "/") filename = false →
  path_join CACHE_DIR filename = CACHE_DIR ++ py "/" ++ filename.
Proof. intros H. unfold path_join. by rewrite H. Qed.

Lemma resolve_join_inside filename :
  startswith (py "/") filename = false →
  py ".." ∉ split_on 47 filename →
  inside_cache (resolve (path_join CACHE_DIR filename)).
Proof.
  intros Hrel Hdots. rewrite path_join_relative by done.
  unfold resolve, inside_cache.
  change (py "/" ++ filename) with (47 :: filename).
  rewrite split_on_app by apply cache_dir_no_slash.
  simpl. destruct (walk_descends false (split_on 47 filename) [CACHE_DIR] Hdots) as [more Hw].
  exists more. f_equal. exact Hw.
Qed.

(** ** Runs *)

Lemma replay_app e1 e2 fs : replay (e1 ++ e2) fs = replay e2 (replay e1 fs).
Proof. apply foldl_app. Qed.

Lemma advance_nil w : advance w [] = w.
Proof. destruct w. unfold advance. simpl. by rewrite app_nil_r. Qed.

Lemma advance_app w e1 e2 : advance (advance w e1) e2 = advance w (e1 ++ e2).
Proof. unfold advance. simpl. by rewrite replay_app, app_assoc. Qed.

Lemma world_advance w fs' tr evs :
  tr = trace w ++ evs → fs' = replay evs (files w) → World fs' tr = advance w evs.
Proof. by intros -> ->. Qed.

Lemma advance_start fs evs : advance (World fs []) evs = World (replay evs fs) evs.
Proof. done. Qed.

Section Run_rules.
Context {A B : Type}.

Lemma runs_ret (a : A) w : runs (ret a) w (Ok a) [].
Proof. unfold runs, ret. by rewrite advance_nil. Qed.

Lemma runs_raise e w : runs (raise e : M A) w (Raise e) [].
Proof. unfold runs, raise. by rewrite advance_nil. Qed.

Lemma runs_lift (r : result A) w : runs (lift r) w r [].
Proof. unfold runs, lift. by rewrite advance_nil. Qed.

Lemma runs_call ev (r : result A) w : runs (call ev r) w r [ev].
Proof. unfold runs, call, bind, emit, lift. done. Qed.

Lemma runs_bind_ok (m : M A) (f : A → M B) w a e1 r e2 :
  runs m w (Ok a) e1 → runs (f a) (advance w e1) r e2 →
  runs (bind m f) w r (e1 ++ e2).
Proof. unfold runs, bind. intros -> ->. by rewrite advance_app. Qed.

Lemma runs_bind_raise (m : M A) (f : A → M B) w e e1 :
  runs m w (Raise e) e1 → runs (bind m f) w (Raise e) e1.
Proof. unfold runs, bind. by intros ->. Qed.

Lemma runs_try_ok (m : M A) h w a e1 :
  runs m w (Ok a) e1 → runs (try_except m h) w (Ok a) e1.
Proof. unfold runs, try_except. by intros ->. Qed.

Lemma runs_try_raise (m : M A) h w e e1 r e2 :
  runs m w (Raise e) e1 → runs (h e) (advance w e1) r e2 →
  runs (try_except m h) w r (e1 ++ e2).
Proof. unfold runs, try_except. intros -> ->. by rewrite advance_app. Qed.

Lemma runs_inv (m : M A) w r evs r' w' :
  runs m w r evs → m w = (r', w') → r' = r ∧ w' = advance w evs.
Proof. unfold runs. intros -> [= <- <-]. done. Qed.

End Run_rules.

Lemma runs_emit ev w : runs (emit ev) w (Ok ()) [ev].
Proof. done. Qed.

Lemma runs_emit_all evs w : runs (emit_all evs) w (Ok ()) evs.
Proof.
  revert w. induction evs as [|ev evs IH]; intros w.
  - apply runs_ret.
  - simpl. change (ev :: evs) with ([ev] ++ evs).
    eapply runs_bind_ok; [apply runs_emit|apply IH].
Qed.

Lemma runs_path_exists p w :
  runs (path_exists p) w (Ok (bool_decide (is_Some (files w !! resolve p)))) [EvExists p].
Proof. done. Qed.

Lemma runs_read_file p w data :
  files w !! resolve p = Some data → runs (read_file p) w (Ok data) [EvOpenR p].
Proof. unfold runs, read_file. by intros ->. Qed.

Lemma runs_write_file p text w :
  runs (write_file p text) w (Ok ()) [EvOpenW p; EvWrite p text].
Proof.
  unfold write_file. change [EvOpenW p; EvWrite p text] with ([EvOpenW p] ++ [EvWrite p text]).
  eapply runs_bind_ok; apply runs_emit.
Qed.

(** ** The stages *)

Ltac run_leaf :=
  unfold runs; simpl; split;
  [ f_equal; eapply world_advance;
    [ rewrite <- ?app_assoc; simpl; reflexivity | reflexivity ]
  | repeat split; repeat constructor ].

Lemma runs_ytm_lyrics env q w :
  ∃ evs, runs (ytm_lyrics env q) w (fst (ytm_lyrics env q start_world)) evs
         ∧ Forall (fun ev => is_lyric_call ev = true ∧ is_transcript_call ev = false) evs
         ∧ head evs = Some (EvYtmSearch q).
Proof.
  unfold ytm_lyrics, call, bind, emit, lift, ret.
  destruct (ytm_search env q) as [[|[[vid|]] rest]|e]; simpl.
  - eexists. run_leaf.
  - destruct (ytm_get_song env vid) as [[[[[browse|]]|]]|e]; simpl.
    + destruct (ytm_get_lyrics env browse) as [[[[[|c text]|]]|]|e]; simpl;
        eexists; run_leaf.
    + eexists. run_leaf.
    + eexists. run_leaf.
    + eexists. run_leaf.
  - eexists. run_leaf.
  - eexists. run_leaf.
Qed.

Lemma runs_eq {A} (m : M A) w r evs evs' :
  runs m w r evs → evs = evs' → runs m w r evs'.
Proof. by intros ? <-. Qed.

Lemma runs_transcript_lyrics env video_id w :
  runs (try_except (transcript_lyrics env video_id) (fun _ => ret []))
       w (Ok (transcript_text env video_id))
       [EvTranscriptFetch video_id transcript_languages].
Proof.
  unfold transcript_lyrics, transcript_text.
  destruct (transcript_fetch env video_id transcript_languages) as [t|e].
  - apply runs_try_ok.
    eapply runs_eq; [eapply runs_bind_ok; [apply runs_call|apply runs_ret]|done].
  - eapply runs_eq; [eapply runs_try_raise;
      [eapply runs_bind_raise; apply runs_call|apply runs_ret]|done].
Qed.

Lemma runs_fetch_lyrics env q video_id w :
  ∃ lyrics levs,
    runs (fetch_lyrics env q video_id) w (Ok lyrics) levs
    ∧ lyric_stage env q video_id lyrics levs.
Proof.
  destruct (runs_ytm_lyrics env q w) as (evs & Hrun & Hall & Hhead).
  assert (Forall (fun ev => is_lyric_call ev = true) evs) as Hlyr
    by (eapply Forall_impl; [exact Hall|by intros ? []]).
  assert (Forall (fun ev => is_transcript_call ev = false) evs) as Hnot
    by (eapply Forall_impl; [exact Hall|by intros ? []]).
  assert (head (evs ++ [EvTranscriptFetch video_id transcript_languages])
          = Some (EvYtmSearch q)) as Hhead'
    by (destruct evs; [done|exact Hhead]).
  unfold fetch_lyrics, lyric_stage, primary_text.
  destruct (fst (ytm_lyrics env q start_world)) as [[|c text]|e].
  - exists (transcript_text env video_id),
      (evs ++ [EvTranscriptFetch video_id transcript_languages]).
    split; [|split; [|split; [done|split; [done|by rewrite last_snoc]]]].
    + eapply runs_bind_ok; [apply runs_try_ok, Hrun|].
      apply runs_transcript_lyrics.
    + apply Forall_app. split; [done|by repeat constructor].
  - exists (c :: text), evs.
    split; [|by repeat split].
    eapply runs_eq; [eapply runs_bind_ok; [apply runs_try_ok, Hrun|apply runs_ret]|].
    by rewrite app_nil_r.
  - exists (transcript_text env video_id),
      (evs ++ [EvTranscriptFetch video_id transcript_languages]).
    split; [|split; [|split; [done|split; [done|by rewrite last_snoc]]]].
    + eapply runs_bind_ok.
      * eapply runs_eq; [eapply runs_try_raise; [exact Hrun|apply runs_ret]|].
        by rewrite app_nil_r.
      * apply runs_transcript_lyrics.
    + apply Forall_app. split; [done|by repeat constructor].
Qed.

Lemma runs_writable_cookie_file env k w :
  ∃ r evs, runs (writable_cookie_file env) w r evs
           ∧ Forall (fetch_event k) evs
           ∧ ∀ c, r = Ok c → c = cookie_path ∨ c = writable_cookie_path.
Proof.
  unfold writable_cookie_file. destruct (can_append env cookie_path).
  - exists (Ok cookie_path), [EvOpenA cookie_path]. split; [|split].
    + eapply runs_eq; [eapply runs_bind_ok; [apply runs_emit|apply runs_ret]|done].
    + repeat constructor.
    + intros c [= <-]. by left.
  - unfold shutil_copy, bind.
    destruct (files w !! resolve cookie_path) as [data|] eqn:Hc.
    + exists (Ok writable_cookie_path), [EvCopy cookie_path writable_cookie_path].
      split; [|split].
      * unfold runs. rewrite Hc. done.
      * repeat constructor.
      * intros c [= <-]. by right.
    + eexists (Raise _), []. split; [|split].
      * unfold runs. rewrite Hc, advance_nil. done.
      * constructor.
      * done.
Qed.

Lemma stem_ext k ext : stem k ++ ext = cache_path k ext.
Proof. unfold stem, cache_path. by rewrite <- !app_assoc. Qed.

Lemma runs_ydl_extract_info env k c url w :
  c = cookie_path ∨ c = writable_cookie_path →
  let opts := {| outtmpl_stem := stem k; cookiefile := c |} in
  ∃ evs, runs (ydl_extract_info env opts url) w (snd (extract_info env opts url)) evs
         ∧ Forall (fetch_event k) evs.
Proof.
  intros Hc opts. unfold ydl_extract_info.
  destruct (extract_info env opts url) as [effects answer]. simpl.
  exists ([EvExtractInfo opts url] ++ (tool_event opts <$> effects) ++ []).
  split.
  - eapply runs_bind_ok; [apply runs_emit|].
    eapply runs_bind_ok; [apply runs_emit_all|apply runs_lift].
  - rewrite app_nil_r. apply Forall_app. split; [repeat constructor|].
    apply Forall_fmap, Forall_forall. intros eff _.
    unfold compose.
    destruct eff; cbn [tool_event]; unfold opts; cbn [outtmpl_stem cookiefile];
      rewrite ?stem_ext; by constructor.
Qed.

Lemma runs_persist k lyrics v duration w :
  runs (persist k lyrics v duration) w
       (Ok (JsonResponse 200 (JDict (meta_of k v duration))))
       (persist_events k lyrics (meta_of k v duration)).
Proof.
  unfold persist.
  eapply runs_eq.
  - eapply runs_bind_ok; [apply runs_write_file|].
    eapply runs_bind_ok; [apply runs_write_file|apply runs_ret].
  - done.
Qed.

Lemma runs_resolve_and_fetch env q k w :
  ∃ r evs, runs (resolve_and_fetch env q k) w r evs ∧ fetched env q k r evs.
Proof.
  unfold resolve_and_fetch.
  destruct (youtube_search env q) as [[|v rest]|e] eqn:Hsearch.
  - do 2 eexists. split.
    + eapply runs_bind_ok; [apply runs_call|apply runs_ret].
    + apply FetchFailed; [by apply NoVideo|by repeat constructor|done].
  - set (w1 := advance w [EvYoutubeSearch q]).
    destruct (runs_writable_cookie_file env k w1) as (rc & ec & Hrc & Hec & Hc).
    destruct rc as [c|e].
    2:{ do 2 eexists. split.
        - eapply runs_bind_ok; [apply runs_call|].
          eapply runs_bind_raise. exact Hrc.
        - apply FetchFailed; [by eapply CookieMissing| |done].
          apply Forall_app. split; [by repeat constructor|done]. }
    specialize (Hc c eq_refl).
    set (w2 := advance w1 ec).
    set (url := py "https://www.youtube.com/watch?v=" ++ videoId v).
    destruct (runs_ydl_extract_info env k c url w2 Hc) as (ed & Hrd & Hed).
    destruct (snd (extract_info env {| outtmpl_stem := stem k; cookiefile := c |} url))
      as [i|e].
    + set (w3 := advance w2 (ed ++ [])).
      destruct (runs_fetch_lyrics env q (videoId v) w3)
        as (lyrics & levs & Hrl & Hlyr).
      do 2 eexists. split.
      * eapply runs_bind_ok; [apply runs_call|].
        eapply runs_bind_ok; [exact Hrc|].
        eapply runs_bind_ok.
        { apply runs_try_ok. eapply runs_bind_ok; [exact Hrd|apply runs_ret]. }
        eapply runs_bind_ok; [exact Hrl|apply runs_persist].
      * rewrite app_nil_r, !app_assoc, <- (app_assoc _ levs).
        eapply FetchDone; [done| |done|done].
        rewrite <- app_assoc. apply Forall_app. split; [by repeat constructor|].
        by apply Forall_app.
    + do 2 eexists. split.
      * eapply runs_bind_ok; [apply runs_call|].
        eapply runs_bind_ok; [exact Hrc|].
        eapply runs_bind_ok.
        { eapply runs_try_raise; [|apply runs_ret].
          eapply runs_bind_raise. exact Hrd. }
        apply runs_ret.
      * apply FetchFailed; [by eapply DownloadFailed| |done].
        rewrite !app_nil_r. apply Forall_app. split; [by repeat constructor|].
        by apply Forall_app.
  - do 2 eexists. split.
    + eapply runs_bind_raise. apply runs_call.
    + apply FetchFailed; [by apply SearchRaised|by repeat constructor|done].
Qed.

(** ** The shape of a [stream_pcm] run *)

Section Outcome.
Variable json_load : pystr → result json.

Lemma runs_cached_response p text w :
  files w !! resolve p = Some text →
  ∃ r, runs (cached_response json_load p) w r [EvOpenR p] ∧ cached json_load text r.
Proof.
  intros Hp. unfold cached_response.
  destruct (json_load text) as [j|e] eqn:Hload.
  - assert (∃ r, runs (match j with
                       | JDict d =>
                           ret (JsonResponse 200
                                  (JDict (dict_set (py "from_cache") (JBool true) d)))
                       | _ => raise (Exn (py "TypeError")
                                (py "object does not support item assignment"))
                       end) (advance (advance w [EvOpenR p]) []) r []
                 ∧ cached json_load text r) as (r & Hr & Hc).
    { destruct j; try (eexists; split;
        [apply runs_raise|apply CachedBroken; intros d; rewrite Hload; congruence]).
      eexists; split; [apply runs_ret|by apply CachedRecord]. }
    exists r. split; [|done].
    eapply runs_eq.
    + eapply runs_bind_ok; [by apply runs_read_file|].
      cbv beta. rewrite Hload.
      eapply runs_bind_ok; [apply runs_lift|exact Hr].
    + done.
  - exists (Raise e). split.
    + eapply runs_eq.
      * eapply runs_bind_ok; [by apply runs_read_file|].
        cbv beta. rewrite Hload.
        eapply runs_bind_raise. apply runs_lift.
      * done.
    + apply CachedBroken. intros d. rewrite Hload. congruence.
Qed.

Lemma stream_pcm_runs env req fs :
  ∃ r evs, runs (stream_pcm json_load env req) (World fs []) r evs
           ∧ outcome json_load env req fs r evs.
Proof.
  unfold stream_pcm.
  destruct (request_query req) as [q|] eqn:Hq; unfold request_query in Hq.
  2:{ exists (Ok (JsonResponse 400 (error_body (py "Missing song")))), [].
      split; [|by apply MissingSong].
      destruct (arg_song req) as [[|c song]|]; [apply runs_ret|done|apply runs_ret]. }
  destruct (arg_song req) as [[|c song]|] eqn:Hsong; try done.
  injection Hq as Hq. rewrite Hq.
  assert (request_query req = Some q) as Hrq
    by (unfold request_query; by rewrite Hsong, Hq).
  destruct (get_cache_id q) as [k|] eqn:Hk.
  2:{ do 2 eexists. split.
      - eapply runs_bind_raise. apply runs_call.
      - by apply NoKey. }
  set (w1 := advance (World fs []) [EvCacheId q]).
  set (w2 := advance w1 [EvExists (meta_path k)]).
  destruct (fs !! resolve (meta_path k)) as [text|] eqn:Hmeta.
  - destruct (runs_cached_response (meta_path k) text w2 Hmeta) as (r & Hr & Hc).
    exists r, ([EvCacheId q] ++ [EvExists (meta_path k)] ++ [EvOpenR (meta_path k)]).
    split; [|by eapply CacheHit].
    eapply runs_bind_ok; [apply runs_call|].
    eapply runs_bind_ok; [apply runs_path_exists|].
    fold w1 (meta_path k) w2.
    replace (bool_decide (is_Some (files w1 !! resolve (meta_path k)))) with true;
      [exact Hr|].
    symmetry. apply bool_decide_eq_true_2. by exists text.
  - destruct (runs_resolve_and_fetch env q k w2) as (r & evs & Hr & Hf).
    exists r, ([EvCacheId q] ++ [EvExists (meta_path k)] ++ evs).
    split; [|by eapply CacheMiss].
    eapply runs_bind_ok; [apply runs_call|].
    eapply runs_bind_ok; [apply runs_path_exists|].
    fold w1 (meta_path k) w2.
    replace (bool_decide (is_Some (files w1 !! resolve (meta_path k)))) with false;
      [exact Hr|].
    symmetry. apply bool_decide_eq_false_2. intros [text Ht].
    change (files w1 !! resolve (meta_path k)) with (fs !! resolve (meta_path k)) in Ht.
    congruence.
Qed.

Lemma stream_pcm_outcome env req fs r w :
  run (stream_pcm json_load env req) fs = (r, w) →
  ∃ evs, w = World (replay evs fs) evs ∧ outcome json_load env req fs r evs.
Proof.
  intros Hrun. destruct (stream_pcm_runs env req fs) as (r' & evs & Hr & Ho).
  destruct (runs_inv _ _ _ _ _ _ Hr Hrun) as [-> ->].
  exists evs. by rewrite advance_start.
Qed.

End Outcome.

(** ** Artifacts and the events that leave them alone *)

Ltac no_slash := apply (bool_decide_unpack _); vm_compute; exact I.

Lemma artifact_ext_no_slash ext : artifact_ext ext → 47 ∉ ext.
Proof. intros [-> | ->]; no_slash. Qed.

Lemma ext_str_no_slash e : 47 ∉ ext_str e.
Proof. destruct e; no_slash. Qed.

Lemma ext_str_not_artifact e ext : artifact_ext ext → ext_str e ≠ ext.
Proof. intros [-> | ->]; destruct e; intros H; vm_compute in H; discriminate. Qed.

Lemma resolve_cookie_path :
  resolve cookie_path = (true, [py "etc"; py "secrets"; py "cookiesyt.txt"]).
Proof. vm_compute. reflexivity. Qed.

Lemma resolve_writable_cookie_path :
  resolve writable_cookie_path = (false, [writable_cookie_path]).
Proof. vm_compute. reflexivity. Qed.

Lemma artifact_not_cookie k ext c :
  is_key k → artifact_ext ext →
  c = cookie_path ∨ c = writable_cookie_path →
  resolve c ≠ resolve (cache_path k ext).
Proof.
  intros Hk Hext Hc.
  rewrite resolve_cache_path by auto using artifact_ext_no_slash.
  destruct Hc as [-> | ->].
  - rewrite resolve_cookie_path. discriminate.
  - rewrite resolve_writable_cookie_path. discriminate.
Qed.

Lemma artifact_not_media k0 e k ext :
  is_key k0 → is_key k → artifact_ext ext →
  resolve (cache_path k0 (ext_str e)) ≠ resolve (cache_path k ext).
Proof.
  intros Hk0 Hk Hext Heq.
  apply cache_path_inj in Heq as [_ Heq];
    auto using artifact_ext_no_slash, ext_str_no_slash.
  by apply (ext_str_not_artifact e ext).
Qed.

Lemma meta_not_lrc k0 k : is_key k0 → is_key k → resolve (lrc_path k0) ≠ resolve (meta_path k).
Proof.
  intros Hk0 Hk Heq. apply cache_path_inj in Heq as [_ Heq]; [|done|done|no_slash|no_slash].
  vm_compute in Heq. discriminate.
Qed.

Lemma quiet_no_write ev : written_path ev = None → quiet ev.
Proof. intros H fs k ext _ _. by destruct ev. Qed.

Lemma quiet_lyric_call ev : is_lyric_call ev = true → quiet ev.
Proof. intros H. apply quiet_no_write. by destruct ev. Qed.

Lemma quiet_fetch_event k0 ev : is_key k0 → fetch_event k0 ev → quiet ev.
Proof.
  intros Hk0 Hev fs k ext Hk Hext.
  destruct Hev as [q| | |opts url|e data|e|c data Hc]; simpl; try done.
  - destruct (fs !! resolve cookie_path); [done|].
    apply lookup_insert_ne, artifact_not_cookie; auto.
  - destruct (fs !! resolve cookie_path); [|done].
    apply lookup_insert_ne, artifact_not_cookie; auto.
  - by apply lookup_insert_ne, artifact_not_media.
  - by apply lookup_delete_ne, artifact_not_media.
  - by apply lookup_insert_ne, artifact_not_cookie.
Qed.

Lemma replay_quiet evs fs k ext :
  Forall quiet evs → is_key k → artifact_ext ext →
  replay evs fs !! resolve (cache_path k ext) = fs !! resolve (cache_path k ext).
Proof.
  intros Hq Hk Hext. revert fs.
  induction Hq as [|ev evs Hev _ IH]; intros fs; [done|].
  simpl. rewrite IH. by apply Hev.
Qed.

Lemma stage_fetch_event k ev : is_key k → fetch_event k ev → stage_event ev.
Proof.
  intros Hk Hev. split; [by eapply quiet_fetch_event|]. by destruct Hev.
Qed.

Lemma stage_lyric_call ev : is_lyric_call ev = true → stage_event ev.
Proof. intros H. split; [by apply quiet_lyric_call|]. by destruct ev. Qed.

(** ** Every trace: quiet stages, then the persist stage or nothing *)

Section Trace.
Variable json_load : pystr → result json.

Lemma outcome_split env req fs r evs :
  outcome json_load env req fs r evs →
  ∃ stages tail,
    evs = stages ++ tail ∧ Forall stage_event stages
    ∧ (tail = [] ∨
       ∃ k lyrics data,
         tail = persist_events k lyrics data ∧ persisted env req fs r k lyrics data).
Proof.
  intros [Hq|q e Hq Hk|q k text r' Hq Hk Hmeta Hc|q k r' evs' Hq Hk Hmeta Hf].
  - exists [], []. auto.
  - exists [EvCacheId q], []. split; [done|]. split; [|by left].
    repeat constructor.
  - eexists _, []. split; [by rewrite app_nil_r|]. split; [|by left].
    repeat constructor.
  - pose proof (get_cache_id_is_key _ _ Hk) as Hkey.
    assert (Forall stage_event [EvCacheId q; EvExists (meta_path k)]) as Hhead
      by repeat constructor.
    destruct Hf as [r' pre Hfail Hpre _|v rest duration lyrics pre levs Hs Hpre _ Hlyr].
    + exists ([EvCacheId q; EvExists (meta_path k)] ++ pre), [].
      split; [by rewrite app_nil_r|]. split; [|by left].
      apply Forall_app. split; [done|].
      eapply Forall_impl; [exact Hpre|]. intros ev. by apply stage_fetch_event.
    + exists ([EvCacheId q; EvExists (meta_path k)] ++ pre ++ levs),
        (persist_events k lyrics (meta_of k v duration)).
      split; [by rewrite <- !app_assoc|]. split.
      * apply Forall_app. split; [done|]. apply Forall_app. split.
        -- eapply Forall_impl; [exact Hpre|]. intros ev. by apply stage_fetch_event.
        -- eapply Forall_impl; [exact (proj1 Hlyr)|]. intros ev. apply stage_lyric_call.
      * right. exists k, lyrics, (meta_of k v duration). split; [done|].
        by exists q, v, rest, duration.
Qed.

End Trace.

(** ** Dictionaries *)

Lemma dict_get_set_eq k v d : dict_get k (dict_set k v d) = Some v.
Proof.
  induction d as [|[k' v'] d IH]; simpl.
  - by rewrite decide_True.
  - destruct (decide (k' = k)) as [->|Hne]; simpl.
    + by rewrite decide_True.
    + by rewrite decide_False.
Qed.

Lemma dict_get_set_ne k k' v d : k' ≠ k → dict_get k' (dict_set k v d) = dict_get k' d.
Proof.
  intros Hne. induction d as [|[k0 v0] d IH]; simpl.
  - by rewrite decide_False.
  - destruct (decide (k0 = k)) as [->|Hne0]; simpl.
    + by rewrite !decide_False.
    + by rewrite IH.
Qed.

(** ** The claims *)

(** C7.  [get_cache_id] is a function of the query alone, defined on
    every UTF-8 string (every sequence of Unicode scalar values, which is
    what a request delivers): it returns the hexadecimal text of the
    16-byte (128-bit) MD5 digest, thirty-two characters among [0-9a-f],
    and equal queries get equal keys. *)
Theorem get_cache_id_total_on_utf8_text (q : pystr) :
  utf8_text q →
  ∃ bytes k,
    encode_utf8 q = Some bytes
    ∧ get_cache_id q = Some k
    ∧ length (MD5.digest bytes) = 16%nat
    ∧ length k = 32%nat
    ∧ Forall is_hex k
    ∧ ∀ q', q' = q → get_cache_id q' = Some k.
Proof.
  intros Hq. destruct (encode_utf8_text q Hq) as [bytes Hb].
  exists bytes, (MD5.hexdigest bytes).
  assert (get_cache_id q = Some (MD5.hexdigest bytes)) as Hk
    by (unfold get_cache_id; by rewrite Hb).
  destruct (hexdigest_is_key bytes) as [Hlen Hhex].
  repeat split; auto using digest_length.
  by intros q' ->.
Qed.

Lemma get_cache_id_total_on_utf8_text_witness :
  utf8_text Scenario.query
  ∧ ∃ bytes k,
      encode_utf8 Scenario.query = Some bytes
      ∧ get_cache_id Scenario.query = Some k
      ∧ length (MD5.digest bytes) = 16%nat
      ∧ length k = 32%nat
      ∧ Forall is_hex k
      ∧ ∀ q', q' = Scenario.query → get_cache_id q' = Some k.
Proof.
  assert (utf8_text Scenario.query) as H
    by (apply utf8_text_check; vm_compute; reflexivity).
  split; [exact H|exact (get_cache_id_total_on_utf8_text Scenario.query H)].
Defined.

(** Outside the UTF-8 strings the encoder raises: a [str] built in
    Python may hold a lone surrogate, which has no encoding.  No request
    delivers one. *)
Example get_cache_id_lone_surrogate :
  Forall is_code_point [0xD800] ∧ get_cache_id [0xD800] = None.
Proof. split; [by repeat constructor|reflexivity]. Qed.

Section Claims.
Variable json_load : pystr → result json.

Lemma request_query_none req :
  request_query req = None ↔ arg_song req = None ∨ arg_song req = Some [].
Proof.
  unfold request_query. destruct (arg_song req) as [[|c song]|]; split; auto;
    try done; intros [?|?]; done.
Qed.

Lemma fetch_failure_status env q r : fetch_failure env q r → http_status r ≠ 400 ∧ http_status r ≠ 200.
Proof. by intros []. Qed.

Lemma cached_status text r : cached json_load text r → http_status r ≠ 400.
Proof. by intros []. Qed.

(** C9.  [stream_pcm] answers 400 exactly when [song] is absent or the
    empty string; the body is then the error message, and the run has
    derived no key, made no call and touched no file. *)
Theorem missing_song_is_400 env req fs r w :
  run (stream_pcm json_load env req) fs = (r, w) →
  (http_status r = 400 ↔ arg_song req = None ∨ arg_song req = Some [])
  ∧ (http_status r = 400 →
     r = Ok (JsonResponse 400 (error_body (py "Missing song")))
     ∧ trace w = [] ∧ files w = fs).
Proof.
  intros Hrun. apply stream_pcm_outcome in Hrun as (evs & -> & Ho).
  rewrite <- request_query_none.
  destruct Ho as [Hq|q e Hq Hk|q k text r Hq Hk Hmeta Hc|q k r evs Hq Hk Hmeta Hf].
  - done.
  - split; [|done]. split; [done|]. intros Hn. by rewrite Hn in Hq.
  - apply cached_status in Hc. split; [|done]. split; [done|].
    intros Hn. by rewrite Hn in Hq.
  - assert (http_status r ≠ 400) as Hr.
    { destruct Hf as [r pre Hfail _ _|]; [|done].
      by apply fetch_failure_status in Hfail as [? _]. }
    split; [|done]. split; [done|]. intros Hn. by rewrite Hn in Hq.
Qed.

(** C1 (as amended).  When the metadata file of the query's key exists
    at the start of a run, the run derives the key, tests the file and
    reads it, and does nothing else: no call to a collaborator, no file
    written, the files unchanged.  When the file holds a record, the
    answer is 200 with that record, [from_cache] set to true and the other
    fields as stored; when it holds anything else, the run raises and no
    record is answered. *)
Theorem cache_hit_serves_stored_record env req fs q k text r w :
  request_query req = Some q →
  get_cache_id q = Some k →
  fs !! resolve (meta_path k) = Some text →
  run (stream_pcm json_load env req) fs = (r, w) →
  trace w = [EvCacheId q; EvExists (meta_path k); EvOpenR (meta_path k)]
  ∧ Forall (fun ev => is_external ev = false ∧ written_path ev = None) (trace w)
  ∧ files w = fs
  ∧ (∀ d, json_load text = Ok (JDict d) →
      ∃ body,
        r = Ok (JsonResponse 200 (JDict body))
        ∧ body = dict_set (py "from_cache") (JBool true) d
        ∧ dict_get (py "from_cache") body = Some (JBool true)
        ∧ ∀ field, field ≠ py "from_cache" → dict_get field body = dict_get field d)
  ∧ ((∀ d, json_load text ≠ Ok (JDict d)) → ∃ e, r = Raise e).
Proof.
  intros Hq Hk Hmeta Hrun. apply stream_pcm_outcome in Hrun as (evs & -> & Ho).
  destruct Ho as [Hq'|q' e Hq' Hk'|q' k' text' r Hq' Hk' Hmeta' Hc
                  |q' k' r evs Hq' Hk' Hmeta' Hf].
  - congruence.
  - congruence.
  - assert (q' = q) as -> by congruence.
    assert (k' = k) as -> by congruence.
    assert (text' = text) as -> by congruence.
    simpl. split; [done|].
    split; [by repeat first [apply Forall_nil|apply Forall_cons; split]|].
    split; [done|]. split.
    + intros d Hd. destruct Hc as [d' Hd'|e Hbroken].
      * assert (d' = d) as -> by congruence.
        eexists. split; [reflexivity|]. split; [reflexivity|].
        split; [apply dict_get_set_eq|]. intros field Hf. by apply dict_get_set_ne.
      * by destruct (Hbroken d).
    + intros Hbroken. destruct Hc as [d' Hd'|e _]; [by destruct (Hbroken d')|].
      by exists e.
  - assert (q' = q) as -> by congruence.
    assert (k' = k) as -> by congruence.
    congruence.
Qed.

(** C3.  A run that answers 404 (the search found nothing) or 500 (the
    download raised) has written no metadata file for the query's key: the
    file is absent at every point of the run and at its end, and the same
    request, whatever the collaborators then answer, searches again. *)
Theorem failed_run_persists_nothing env req fs r w resp :
  run (stream_pcm json_load env req) fs = (r, w) →
  r = Ok resp →
  status_of resp = 404 ∨ status_of resp = 500 →
  ∃ q k,
    request_query req = Some q ∧ get_cache_id q = Some k
    ∧ ((youtube_search env q = Ok []
        ∧ resp = JsonResponse 404 (error_body (py "No video found")))
       ∨ ∃ e, resp = JsonResponse 500 (error_body (py "Download failed: " ++ exn_str e)))
    ∧ (∀ pre post, trace w = pre ++ post →
         replay pre fs !! resolve (meta_path k) = None)
    ∧ files w !! resolve (meta_path k) = None
    ∧ ∀ env' r' w',
        run (stream_pcm json_load env' req) (files w) = (r', w') →
        ∃ rest,
          trace w' = EvCacheId q :: EvExists (meta_path k) :: EvYoutubeSearch q :: rest.
Proof.
  intros Hrun Hr Hstatus. apply stream_pcm_outcome in Hrun as (evs & -> & Ho).
  destruct Ho as [Hq|q e Hq Hk|q k text r Hq Hk Hmeta Hc|q k r evs Hq Hk Hmeta Hf].
  - simplify_eq. simpl in Hstatus. destruct Hstatus; done.
  - done.
  - destruct Hc; [|done]. simplify_eq. simpl in Hstatus. destruct Hstatus; done.
  - pose proof (get_cache_id_is_key _ _ Hk) as Hkey.
    destruct Hf as [r pre Hfail Hpre _|v rest duration lyrics pre levs _ _ _ _].
    2:{ simplify_eq. simpl in Hstatus. destruct Hstatus; done. }
    assert (Forall quiet ([EvCacheId q; EvExists (meta_path k)] ++ pre)) as Hquiet.
    { apply Forall_app. split; [by repeat constructor|].
      eapply Forall_impl; [exact Hpre|]. intros ev. by apply quiet_fetch_event. }
    assert (∀ pre' post, [EvCacheId q; EvExists (meta_path k)] ++ pre = pre' ++ post →
              replay pre' fs !! resolve (meta_path k) = None) as Hnone.
    { intros pre' post Heq. rewrite Heq in Hquiet. apply Forall_app in Hquiet as [Hq' _].
      unfold meta_path. rewrite replay_quiet; [done|done|done|by left]. }
    exists q, k. split; [done|]. split; [done|]. split.
    { destruct Hfail; simplify_eq; [by left|by right; eexists]. }
    assert (replay ([EvCacheId q; EvExists (meta_path k)] ++ pre) fs
              !! resolve (meta_path k) = None) as Hend
      by (apply (Hnone _ []); by rewrite app_nil_r).
    cbn [trace files].
    split; [exact Hnone|]. split; [exact Hend|].
    intros env' r' w' Hrun'. apply stream_pcm_outcome in Hrun' as (evs' & -> & Ho').
    destruct Ho' as [Hq'|q' e' Hq' Hk'|q' k' text' r'' Hq' Hk' Hmeta' Hc'
                     |q' k' r'' evs'' Hq' Hk' Hmeta' Hf']; simplify_eq.
    destruct Hf' as [? [|ev pre''] _ _ Hhead|? ? ? ? [|ev pre''] ? _ _ Hhead _];
      simplify_eq; simpl in Hhead; simplify_eq; simpl; eauto.
Qed.

End Claims.

(** ** Points of a run *)

Lemma keeps_quiet ev : quiet ev → keeps ev.
Proof. intros Hq fs k ext Hk Hext. by rewrite Hq. Qed.

Lemma keeps_open_w p : keeps (EvOpenW p).
Proof. intros fs k ext _ _ H. simpl. apply lookup_insert_is_Some'. by right. Qed.

Lemma keeps_write p data : keeps (EvWrite p data).
Proof. intros fs k ext _ _ H. simpl. apply lookup_insert_is_Some'. by right. Qed.

Lemma replay_keeps evs fs k ext :
  Forall keeps evs → is_key k → artifact_ext ext →
  is_Some (fs !! resolve (cache_path k ext)) →
  is_Some (replay evs fs !! resolve (cache_path k ext)).
Proof.
  intros Hall Hk Hext. revert fs.
  induction Hall as [|ev evs Hev _ IH]; intros fs H; [done|].
  simpl. apply IH. by apply Hev.
Qed.

Lemma keeps_persist_events k lyrics data : Forall keeps (persist_events k lyrics data).
Proof. repeat constructor; auto using keeps_open_w, keeps_write. Qed.

Lemma prefix_of_four {A} (pre post stages : list A) a b c d :
  pre ++ post = stages ++ [a; b; c; d] →
  (∃ more, stages = pre ++ more ∧ post = more ++ [a; b; c; d])
  ∨ (pre = stages ++ [a] ∧ post = [b; c; d])
  ∨ (pre = stages ++ [a; b] ∧ post = [c; d])
  ∨ (pre = stages ++ [a; b; c] ∧ post = [d])
  ∨ (pre = stages ++ [a; b; c; d] ∧ post = []).
Proof.
  intros H. apply app_eq_inv in H as [(y & -> & Hy)|(y & -> & ->)].
  - destruct y as [|? [|? [|? [|? [|? y]]]]]; simpl in Hy; simplify_eq; auto 10.
    left. exists []. by rewrite !app_nil_r.
  - left. by exists y.
Qed.

Lemma lyrics_before_metadata_same fs fs' :
  (∀ k ext, is_key k → artifact_ext ext →
     fs' !! resolve (cache_path k ext) = fs !! resolve (cache_path k ext)) →
  lyrics_before_metadata fs → lyrics_before_metadata fs'.
Proof.
  intros Hsame Hinv k Hk. unfold meta_path, lrc_path.
  rewrite !Hsame; [by apply Hinv|done|by right|done|by left].
Qed.

Lemma lyrics_before_metadata_lrc fs k0 data :
  is_key k0 →
  lyrics_before_metadata fs →
  lyrics_before_metadata (<[resolve (lrc_path k0) := data]> fs).
Proof.
  intros Hk0 Hinv k Hk Hmeta.
  rewrite lookup_insert_ne in Hmeta by by apply meta_not_lrc.
  apply lookup_insert_is_Some'. right. by apply Hinv.
Qed.

Lemma lyrics_before_metadata_meta fs k0 data :
  is_key k0 →
  lyrics_before_metadata fs →
  is_Some (fs !! resolve (lrc_path k0)) →
  lyrics_before_metadata (<[resolve (meta_path k0) := data]> fs).
Proof.
  intros Hk0 Hinv Hlrc k Hk Hmeta.
  apply lookup_insert_is_Some'. right.
  apply lookup_insert_is_Some' in Hmeta as [Heq|Hmeta]; [|by apply Hinv].
  apply cache_path_inj in Heq as [<- _]; [done|done|done|no_slash|no_slash].
Qed.

(** The four points of the persist stage. *)
Lemma persist_points k lyrics data fs :
  is_key k → lyrics_before_metadata fs →
  let ev := persist_events k lyrics data in
  lyrics_before_metadata (replay (take 1 ev) fs)
  ∧ lyrics_before_metadata (replay (take 2 ev) fs)
  ∧ lyrics_before_metadata (replay (take 3 ev) fs)
  ∧ lyrics_before_metadata (replay ev fs).
Proof.
  intros Hk Hinv. cbn -[lyrics_before_metadata resolve].
  fold (lrc_path k) (meta_path k).
  set (fs1 := <[resolve (lrc_path k) := []]> fs).
  set (fs2 := <[resolve (lrc_path k) := default [] (fs1 !! resolve (lrc_path k)) ++ lyrics]> fs1).
  set (fs3 := <[resolve (meta_path k) := []]> fs2).
  assert (lyrics_before_metadata fs1) as H1 by by apply lyrics_before_metadata_lrc.
  assert (lyrics_before_metadata fs2) as H2 by by apply lyrics_before_metadata_lrc.
  assert (is_Some (fs2 !! resolve (lrc_path k))) as Hl2
    by (apply lookup_insert_is_Some'; by left).
  assert (lyrics_before_metadata fs3) as H3 by by apply lyrics_before_metadata_meta.
  assert (is_Some (fs3 !! resolve (lrc_path k))) as Hl3
    by (apply lookup_insert_is_Some'; by right).
  repeat split; try done.
  by apply lyrics_before_metadata_meta.
Qed.

Lemma stage_events_same stages fs k ext :
  Forall stage_event stages → is_key k → artifact_ext ext →
  replay stages fs !! resolve (cache_path k ext) = fs !! resolve (cache_path k ext).
Proof.
  intros Hst. apply replay_quiet.
  eapply Forall_impl; [exact Hst|]. by intros ev [].
Qed.

Lemma stage_events_keep stages : Forall stage_event stages → Forall keeps stages.
Proof.
  intros Hst. eapply Forall_impl; [exact Hst|]. intros ev []. by apply keeps_quiet.
Qed.

Lemma stage_events_no_open stages p : Forall stage_event stages → EvOpenW p ∉ stages.
Proof.
  intros Hst Hin. rewrite Forall_forall in Hst. by destruct (Hst _ Hin).
Qed.

Section Points.
Variable json_load : pystr → result json.

(** C10.  From files where every key that has its metadata has its
    lyrics, a run of [stream_pcm] keeps it so at every point; no lyric or
    metadata artifact that exists at some point is gone at the end; and the
    metadata file of a key is only opened after the lyrics of that key have
    been written. *)
Theorem metadata_implies_lyrics env req fs r w :
  lyrics_before_metadata fs →
  run (stream_pcm json_load env req) fs = (r, w) →
  ∀ pre post, trace w = pre ++ post →
    lyrics_before_metadata (replay pre fs)
    ∧ (∀ k ext, is_key k → artifact_ext ext →
         is_Some (replay pre fs !! resolve (cache_path k ext)) →
         is_Some (files w !! resolve (cache_path k ext)))
    ∧ (∀ k rest, is_key k → post = EvOpenW (meta_path k) :: rest →
         ∃ lyrics, EvWrite (lrc_path k) lyrics ∈ pre).
Proof.
  intros Hinv Hrun pre post Hsplit.
  apply stream_pcm_outcome in Hrun as (evs & -> & Ho).
  cbn [trace files] in *.
  apply outcome_split in Ho as (stages & tail & -> & Hst & Htail).
  assert (Forall keeps tail) as Hkt.
  { destruct Htail as [->|(k & lyrics & data & -> & _)];
      [constructor|apply keeps_persist_events]. }
  split; [|split].
  - destruct Htail as [->|(k & lyrics & data & -> & Hp)].
    + rewrite app_nil_r in Hsplit. subst stages.
      apply Forall_app in Hst as [Hpre _].
      eapply lyrics_before_metadata_same; [|exact Hinv].
      intros. by apply stage_events_same.
    + destruct Hp as (q & v & rest & duration & _ & Hk & _).
      apply get_cache_id_is_key in Hk.
      assert (lyrics_before_metadata (replay stages fs)) as H0.
      { eapply lyrics_before_metadata_same; [|exact Hinv].
        intros. by apply stage_events_same. }
      destruct (persist_points k lyrics data (replay stages fs) Hk H0)
        as (H1 & H2 & H3 & H4).
      symmetry in Hsplit.
      apply prefix_of_four in Hsplit
        as [(more & -> & _)|[[-> _]|[[-> _]|[[-> _]|[-> _]]]]];
        rewrite ?replay_app; try done.
      apply Forall_app in Hst as [Hpre _].
      eapply lyrics_before_metadata_same; [|exact Hinv].
      intros. by apply stage_events_same.
  - intros k ext Hk Hext Hsome. rewrite Hsplit, replay_app.
    apply replay_keeps; [|done|done|done].
    assert (Forall keeps (pre ++ post)) as Hall.
    { rewrite <- Hsplit. apply Forall_app. split; [by apply stage_events_keep|done]. }
    by apply Forall_app in Hall as [_ ?].
  - intros k rest Hk ->.
    destruct Htail as [->|(k0 & lyrics & data & -> & Hp)].
    + rewrite app_nil_r in Hsplit. subst stages.
      destruct (stage_events_no_open _ (meta_path k) Hst).
      apply elem_of_app. right. by left.
    + destruct Hp as (q & v & rest0 & duration & _ & Hk0 & _).
      apply get_cache_id_is_key in Hk0.
      symmetry in Hsplit.
      apply prefix_of_four in Hsplit
        as [(more & -> & Hmore)|[[-> Hp]|[[-> Hp]|[[-> Hp]|[-> Hp]]]]];
        try discriminate.
      * destruct more as [|ev more]; simpl in Hmore.
        -- assert (lrc_path k0 = meta_path k) as Hp
             by (unfold persist_events in Hmore; fold (lrc_path k0) in Hmore; congruence).
           destruct (meta_not_lrc k0 k Hk0 Hk). by rewrite Hp.
        -- assert (ev = EvOpenW (meta_path k)) as -> by congruence.
           destruct (stage_events_no_open _ (meta_path k) Hst).
           apply elem_of_app. right. by left.
      * assert (meta_path k0 = meta_path k) as Hp'
          by (fold (meta_path k0) in Hp; congruence).
        assert (k = k0) as ->.
        { assert (resolve (meta_path k0) = resolve (meta_path k)) as Heq by by rewrite Hp'.
          apply cache_path_inj in Heq as [-> _]; [done|done|done|no_slash|no_slash]. }
        exists lyrics. apply elem_of_app. right. right. by left.
Qed.

End Points.

(** The run of a request that misses the cache: it fails in quiet
    stages, or ends with the persist stage after quiet stages. *)
Lemma miss_split env q k r evs :
  is_key k → fetched env q k r evs →
  (fetch_failure env q r ∧ Forall stage_event evs)
  ∨ ∃ v rest duration lyrics stages,
      youtube_search env q = Ok (v :: rest)
      ∧ r = Ok (JsonResponse 200 (JDict (meta_of k v duration)))
      ∧ evs = stages ++ persist_events k lyrics (meta_of k v duration)
      ∧ Forall stage_event stages.
Proof.
  intros Hk [r' pre Hfail Hpre _|v rest duration lyrics pre levs Hs Hpre _ Hlyr].
  - left. split; [done|].
    eapply Forall_impl; [exact Hpre|]. intros ev. by apply stage_fetch_event.
  - right. exists v, rest, duration, lyrics, (pre ++ levs).
    split; [done|]. split; [done|]. split; [by rewrite <- app_assoc|].
    apply Forall_app. split.
    + eapply Forall_impl; [exact Hpre|]. intros ev. by apply stage_fetch_event.
    + eapply Forall_impl; [exact (proj1 Hlyr)|]. intros ev. apply stage_lyric_call.
Qed.

Section Atomicity.
Variable json_load : pystr → result json.

(** C4 (as amended).  In a run that misses the cache, the metadata file
    does not exist at any point before it is opened for writing, so an
    interruption anywhere before that, and in particular between the end of
    the download and the metadata write, leaves no metadata file.  A run
    that answers 200 ends with that open, which creates the file empty,
    followed by the write of the serialised record into it. *)
Theorem metadata_written_in_place_last env req fs q k r w :
  request_query req = Some q →
  get_cache_id q = Some k →
  fs !! resolve (meta_path k) = None →
  run (stream_pcm json_load env req) fs = (r, w) →
  (∀ pre post, trace w = pre ++ post →
     EvOpenW (meta_path k) ∉ pre →
     replay pre fs !! resolve (meta_path k) = None)
  ∧ (∀ body, r = Ok (JsonResponse 200 body) →
       ∃ pre,
         trace w = pre ++ [EvOpenW (meta_path k);
                           EvWrite (meta_path k) (Json.dumps body)]
         ∧ (EvOpenW (meta_path k) ∉ pre)
         ∧ replay (pre ++ [EvOpenW (meta_path k)]) fs !! resolve (meta_path k)
           = Some []
         ∧ files w !! resolve (meta_path k) = Some (Json.dumps body)).
Proof.
  intros Hq Hk Hmeta Hrun.
  apply stream_pcm_outcome in Hrun as (evs & -> & Ho). cbn [trace files].
  pose proof (get_cache_id_is_key _ _ Hk) as Hkey.
  destruct Ho as [Hq'|q' e Hq' Hk'|q' k' text' r Hq' Hk' Hmeta' Hc
                  |q' k' r evs Hq' Hk' Hmeta' Hf]; try congruence.
  assert (q' = q) as -> by congruence.
  assert (k' = k) as -> by congruence.
  assert (Forall stage_event [EvCacheId q; EvExists (meta_path k)]) as Hhead
    by repeat constructor.
  assert (∀ stages pre post, Forall stage_event stages → stages = pre ++ post →
            replay pre fs !! resolve (meta_path k) = None) as Hquiet.
  { intros stages pre post Hst ->. apply Forall_app in Hst as [Hst _].
    unfold meta_path. rewrite stage_events_same; [done|done|done|by left]. }
  apply miss_split in Hf
    as [[Hfail Hst]|(v & rest & duration & lyrics & stages & _ & -> & -> & Hst)];
    [| |done].
  - split.
    + intros pre post Hsplit _. eapply Hquiet; [|exact Hsplit].
      by apply Forall_app.
    + intros body ->. by apply fetch_failure_status in Hfail as [_ ?].
  - assert (Forall stage_event ([EvCacheId q; EvExists (meta_path k)] ++ stages))
      as Hall by by apply Forall_app.
    assert (replay ([EvCacheId q; EvExists (meta_path k)] ++ stages) fs
              !! resolve (meta_path k) = None) as H0
      by (eapply Hquiet; [exact Hall|by rewrite app_nil_r]).
    assert (resolve (lrc_path k) ≠ resolve (meta_path k)) as Hne
      by by apply meta_not_lrc.
    rewrite app_assoc. split.
    + intros pre post Hsplit Hno. symmetry in Hsplit.
      apply prefix_of_four in Hsplit
        as [(more & Hpre & _)|[[-> _]|[[-> _]|[[-> _]|[-> _]]]]].
      * by eapply Hquiet.
      * rewrite replay_app. cbn [replay foldl apply_event].
        by rewrite lookup_insert_ne.
      * rewrite replay_app. cbn [replay foldl apply_event].
        by rewrite !lookup_insert_ne.
      * destruct Hno. apply elem_of_app. right. do 2 right. by left.
      * destruct Hno. apply elem_of_app. right. do 2 right. by left.
    + intros body [= <-].
      set (stages' := [EvCacheId q; EvExists (meta_path k)] ++ stages) in *.
      exists (stages' ++ [EvOpenW (lrc_path k); EvWrite (lrc_path k) lyrics]).
      split; [by rewrite <- app_assoc|]. split; [|split].
      * intros Hin. apply elem_of_app in Hin as [Hin|Hin].
        -- by destruct (stage_events_no_open _ (meta_path k) Hall).
        -- apply elem_of_cons in Hin as [Hin|Hin].
           ++ assert (meta_path k = lrc_path k) as Hp by congruence.
              apply Hne. by rewrite Hp.
           ++ apply elem_of_cons in Hin as [Hin|Hin]; [done|by apply elem_of_nil in Hin].
      * rewrite replay_app. cbn [replay foldl apply_event].
        by rewrite lookup_insert_eq.
      * rewrite replay_app. unfold persist_events.
        cbn [replay foldl apply_event].
        fold (meta_path k). rewrite lookup_insert_eq. by rewrite lookup_insert_eq.
Qed.

End Atomicity.

(** ** The lyric stage in a run *)

Lemma fetch_event_not_lyric k ev : fetch_event k ev → is_lyric_call ev = false.
Proof. by intros []. Qed.

Lemma persist_files k lyrics data fs :
  is_key k →
  replay (persist_events k lyrics data) fs !! resolve (lrc_path k) = Some lyrics.
Proof.
  intros Hk. unfold persist_events. cbn [replay foldl apply_event].
  fold (lrc_path k) (meta_path k).
  assert (resolve (meta_path k) ≠ resolve (lrc_path k)) as Hne
    by (intros H; by apply (meta_not_lrc k k)).
  rewrite !lookup_insert_ne by done.
  rewrite lookup_insert_eq. by rewrite lookup_insert_eq.
Qed.

Section Lyrics.
Variable json_load : pystr → result json.

(** A run that reaches the lyric stage is a cache miss that found a video
    and downloaded it; it goes on to the persist stage and answers 200. *)
Lemma reached_lyric_stage env req fs r w :
  run (stream_pcm json_load env req) fs = (r, w) →
  reaches_lyric_stage (trace w) →
  ∃ q k v rest duration lyrics stages levs,
    request_query req = Some q ∧ get_cache_id q = Some k
    ∧ youtube_search env q = Ok (v :: rest)
    ∧ r = Ok (JsonResponse 200 (JDict (meta_of k v duration)))
    ∧ trace w = stages ++ levs ++ persist_events k lyrics (meta_of k v duration)
    ∧ Forall (fun ev => is_lyric_call ev = false) stages
    ∧ lyric_stage env q (videoId v) lyrics levs
    ∧ files w !! resolve (lrc_path k) = Some lyrics.
Proof.
  intros Hrun (ev & Hin & Hev).
  apply stream_pcm_outcome in Hrun as (evs & -> & Ho). cbn [trace files] in *.
  destruct Ho as [Hq|q e Hq Hk|q k text r Hq Hk Hmeta Hc|q k r evs Hq Hk Hmeta Hf].
  - by apply elem_of_nil in Hin.
  - apply list_elem_of_singleton in Hin as ->. done.
  - repeat (apply elem_of_cons in Hin as [->|Hin]; [done|]).
    by apply elem_of_nil in Hin.
  - destruct Hf as [r pre Hfail Hpre _|v rest duration lyrics pre levs Hs Hpre _ Hlyr].
    + repeat (apply elem_of_cons in Hin as [->|Hin]; [done|]).
      rewrite Forall_forall in Hpre. apply Hpre, fetch_event_not_lyric in Hin.
      congruence.
    + exists q, k, v, rest, duration, lyrics,
        ([EvCacheId q; EvExists (meta_path k)] ++ pre), levs.
      split; [done|]. split; [done|]. split; [done|]. split; [done|].
      split; [by rewrite <- app_assoc|]. split; [|split; [done|]].
      * apply Forall_app. split; [by repeat constructor|].
        eapply Forall_impl; [exact Hpre|]. apply fetch_event_not_lyric.
      * rewrite !app_assoc, replay_app.
        apply persist_files. by eapply get_cache_id_is_key.
Qed.

(** What the handler takes from YouTube Music is what the service
    holds. *)
Lemma primary_text_lyrics env q : primary_text env q = primary_lyrics env q.
Proof.
  unfold primary_text, primary_lyrics, ytm_lyrics, call, bind, emit, lift, ret.
  destruct (ytm_search env q) as [[|[[vid|]] rest]|e]; simpl; try done.
  destruct (ytm_get_song env vid) as [[[[[browse|]]|]]|e]; simpl; try done.
  by destruct (ytm_get_lyrics env browse) as [[[[[|c text]|]]|]|e].
Qed.

(** C5.  In a run that reaches the lyric stage, when YouTube Music holds
    lyrics for the query (the search, the song and the lyrics answer, and
    the text is not empty), that text is what is written to the lyric file
    and the transcript source is never called; when it holds none, the
    transcript source is called for the video with the languages [vi],
    [en] in that order, right before the persist stage, and its text, or
    the empty string, is what is written. *)
Theorem lyric_sources_in_order env req fs r w :
  run (stream_pcm json_load env req) fs = (r, w) →
  reaches_lyric_stage (trace w) →
  ∃ q k v rest lyrics data,
    request_query req = Some q ∧ get_cache_id q = Some k
    ∧ youtube_search env q = Ok (v :: rest)
    ∧ files w !! resolve (lrc_path k) = Some lyrics
    ∧ match primary_lyrics env q with
      | Some text =>
          text ≠ [] ∧ lyrics = text
          ∧ ∀ ev, ev ∈ trace w → is_transcript_call ev = false
      | None =>
          lyrics = transcript_text env (videoId v)
          ∧ ∃ pre,
              trace w = pre ++ EvTranscriptFetch (videoId v) [py "vi"; py "en"]
                            :: persist_events k lyrics data
      end.
Proof.
  intros Hrun Hreach.
  destruct (reached_lyric_stage env req fs r w Hrun Hreach)
    as (q & k & v & rest & duration & lyrics & stages & levs
        & Hq & Hk & Hs & -> & Htr & Hst & (Hlev & Hhead & Hlyr) & Hfile).
  exists q, k, v, rest, lyrics, (meta_of k v duration).
  split; [done|]. split; [done|]. split; [done|]. split; [done|].
  rewrite <- primary_text_lyrics.
  unfold primary_text in *.
  destruct (fst (ytm_lyrics env q start_world)) as [[|c text]|e].
  - destruct Hlyr as [-> Hlast]. split; [done|].
    apply last_Some in Hlast as [levs0 ->].
    exists (stages ++ levs0). rewrite Htr. by rewrite <- !app_assoc.
  - destruct Hlyr as [-> Hnot]. split; [done|]. split; [done|].
    intros ev Hin. rewrite Htr in Hin.
    apply elem_of_app in Hin as [Hin|Hin].
    { rewrite Forall_forall in Hst. apply Hst in Hin. by destruct ev. }
    apply elem_of_app in Hin as [Hin|Hin].
    { rewrite Forall_forall in Hnot. by apply Hnot. }
    repeat (apply elem_of_cons in Hin as [->|Hin]; [done|]).
    by apply elem_of_nil in Hin.
  - destruct Hlyr as [-> Hlast]. split; [done|].
    apply last_Some in Hlast as [levs0 ->].
    exists (stages ++ levs0). rewrite Htr. by rewrite <- !app_assoc.
Qed.

(** C6 (as amended).  In a run that reaches the lyric stage, no
    exception of a lyric source leaves the stage: the run goes on to the
    persist stage and answers 200.  When the primary source raises, the
    transcript source is used as if the primary had no lyrics; when the
    transcript source raises, the lyrics written are the empty string. *)
Theorem lyric_errors_absorbed env req fs r w :
  run (stream_pcm json_load env req) fs = (r, w) →
  reaches_lyric_stage (trace w) →
  ∃ q k v rest duration lyrics,
    request_query req = Some q ∧ get_cache_id q = Some k
    ∧ youtube_search env q = Ok (v :: rest)
    ∧ r = Ok (JsonResponse 200 (JDict (meta_of k v duration)))
    ∧ files w !! resolve (lrc_path k) = Some lyrics
    ∧ (∀ e, fst (ytm_lyrics env q start_world) = Raise e →
         lyrics = transcript_text env (videoId v))
    ∧ (∀ e, primary_text env q = None →
         transcript_fetch env (videoId v) [py "vi"; py "en"] = Raise e →
         lyrics = []).
Proof.
  intros Hrun Hreach.
  destruct (reached_lyric_stage env req fs r w Hrun Hreach)
    as (q & k & v & rest & duration & lyrics & stages & levs
        & Hq & Hk & Hs & -> & Htr & Hst & (Hlev & Hhead & Hlyr) & Hfile).
  exists q, k, v, rest, duration, lyrics.
  split; [done|]. split; [done|]. split; [done|]. split; [done|].
  split; [done|]. split.
  - intros e He. unfold primary_text in Hlyr. rewrite He in Hlyr. by destruct Hlyr.
  - intros e Hnone He. rewrite Hnone in Hlyr. destruct Hlyr as [-> _].
    unfold transcript_text. fold transcript_languages in He. by rewrite He.
Qed.

End Lyrics.

(** ** [serve_cache] *)

Lemma descend_none dirs fs absolute comps :
  foldl (descend dirs fs absolute) None comps = None.
Proof. by induction comps. Qed.

Lemma descend_lexical dirs fs absolute comps stack stack' :
  foldl (descend dirs fs absolute) (Some stack) comps = Some stack' →
  stack' = foldl (walk absolute) stack comps.
Proof.
  revert stack. induction comps as [|c comps IH]; intros stack; cbn [foldl descend].
  - by intros [= <-].
  - destruct (is_dir dirs fs (absolute, stack)); [apply IH|].
    by rewrite descend_none.
Qed.

(** Where the operating system gets through, it ends up where the path
    says. *)
Lemma locate_resolve dirs fs p r : locate dirs fs p = Some r → r = resolve p.
Proof.
  unfold locate, resolve. destruct (bool_decide (p = [])); [done|].
  destruct (foldl _ _ _) as [stack|] eqn:Hwalk; [|done].
  intros [= <-]. f_equal. by eapply descend_lexical.
Qed.

Lemma stat_file dirs fs p data :
  stat dirs fs p = File data → fs !! resolve p = Some data.
Proof.
  unfold stat. destruct (locate dirs fs p) as [r|] eqn:Hloc; [|done].
  apply locate_resolve in Hloc as ->. unfold node_at.
  destruct (fs !! resolve p); [by intros [= ->]|]. by destruct (is_dir _ _ _).
Qed.

Lemma is_dir_cwd dirs fs : is_dir dirs fs (false, []) = true.
Proof. done. Qed.

Lemma is_dir_cache dirs fs : is_dir dirs fs (false, [CACHE_DIR]) = true.
Proof.
  unfold is_dir, base_dir.
  rewrite (bool_decide_eq_true_2 ((false, [CACHE_DIR]) = (false, [CACHE_DIR]))) by done.
  by rewrite orb_true_r.
Qed.

Lemma locate_in_cache dirs fs name :
  plain_name name →
  locate dirs fs (CACHE_DIR ++ py "/" ++ name) = Some (false, [CACHE_DIR; name]).
Proof.
  intros Hname. unfold locate.
  rewrite bool_decide_eq_false_2 by done.
  change (startswith (py "/") (CACHE_DIR ++ py "/" ++ name)) with false.
  change (py "/" ++ name) with (47 :: name).
  rewrite split_on_app by apply cache_dir_no_slash.
  rewrite split_on_no_sep by apply Hname.
  cbn [foldl descend]. rewrite is_dir_cwd.
  rewrite (walk_plain _ _ CACHE_DIR) by apply cache_dir_plain.
  cbn [app descend]. rewrite is_dir_cache.
  by rewrite (walk_plain _ _ name) by done.
Qed.

Lemma stat_cache_path dirs fs k ext :
  is_key k → 47 ∉ ext →
  stat dirs fs (cache_path k ext) = node_at dirs fs (resolve (cache_path k ext)).
Proof.
  intros Hk Hext. rewrite resolve_cache_path by done.
  unfold stat, cache_path. by rewrite locate_in_cache by by apply artifact_plain.
Qed.

Lemma serve_cache_absent dirs filename fs :
  stat dirs fs (path_join CACHE_DIR filename) = NoEntry →
  run (serve_cache dirs filename) fs
  = (Ok (JsonResponse 404 (error_body (py "file not found"))),
     World fs [EvExists (path_join CACHE_DIR filename)]).
Proof.
  intros Habs. unfold run, serve_cache, bind, os_path_exists. cbn [files trace].
  by rewrite Habs.
Qed.

Lemma serve_cache_present dirs filename fs data :
  stat dirs fs (path_join CACHE_DIR filename) = File data →
  run (serve_cache dirs filename) fs
  = (Ok (FileResponse (mimetype_of filename) (chunks 4096 data)),
     World fs [EvExists (path_join CACHE_DIR filename);
               EvOpenR (path_join CACHE_DIR filename)]).
Proof.
  intros Hpres.
  unfold run, serve_cache, bind, os_path_exists, stream_response, generate.
  cbn [files trace]. rewrite Hpres. cbn [negb files trace]. by rewrite Hpres.
Qed.

Lemma serve_cache_directory dirs filename fs :
  stat dirs fs (path_join CACHE_DIR filename) = Dir →
  run (serve_cache dirs filename) fs
  = (Ok (FailingResponse (mimetype_of filename)
           (Exn (py "IsADirectoryError") (path_join CACHE_DIR filename))),
     World fs [EvExists (path_join CACHE_DIR filename)]).
Proof.
  intros Hdir.
  unfold run, serve_cache, bind, os_path_exists, stream_response, generate.
  cbn [files trace]. rewrite Hdir. cbn [negb files trace]. by rewrite Hdir.
Qed.

(** C8 (as amended).  [serve_cache] writes nothing and opens at most one
    file, the one at the path obtained by joining the cache root and the
    file name.  When nothing is at that path it answers 404 with the error
    body and opens nothing; when a regular file is there it answers with
    the content of that file; when a directory is there it answers with a
    response whose body raises, and no file is read.  Where the path leads
    is what the path says, and that lies inside the cache root whenever the
    file name is relative and has no [..] component. *)
Theorem serve_cache_reads_joined_path dirs filename fs r w :
  run (serve_cache dirs filename) fs = (r, w) →
  files w = fs
  ∧ (∀ ev, ev ∈ trace w → written_path ev = None)
  ∧ (∀ ev p, ev ∈ trace w → read_path ev = Some p →
       p = path_join CACHE_DIR filename)
  ∧ (stat dirs fs (path_join CACHE_DIR filename) = NoEntry →
       r = Ok (JsonResponse 404 (error_body (py "file not found")))
       ∧ ∀ ev, ev ∈ trace w → read_path ev = None)
  ∧ (∀ data, stat dirs fs (path_join CACHE_DIR filename) = File data →
       r = Ok (FileResponse (mimetype_of filename) (chunks 4096 data))
       ∧ fs !! resolve (path_join CACHE_DIR filename) = Some data)
  ∧ (stat dirs fs (path_join CACHE_DIR filename) = Dir →
       (∃ e, r = Ok (FailingResponse (mimetype_of filename) e)
             ∧ exn_type e = py "IsADirectoryError")
       ∧ ∀ ev, ev ∈ trace w → read_path ev = None)
  ∧ (∀ place, locate dirs fs (path_join CACHE_DIR filename) = Some place →
       place = resolve (path_join CACHE_DIR filename))
  ∧ (startswith (py "/") filename = false →
     py ".." ∉ split_on 47 filename →
     inside_cache (resolve (path_join CACHE_DIR filename))).
Proof.
  intros Hrun.
  assert (∀ ev, ev ∈ [EvExists (path_join CACHE_DIR filename)] → read_path ev = None)
    as Hquiet by (intros ev Hin; by apply list_elem_of_singleton in Hin as ->).
  destruct (stat dirs fs (path_join CACHE_DIR filename)) as [| |data] eqn:Hstat.
  - rewrite (serve_cache_absent _ _ _ Hstat) in Hrun. injection Hrun as <- <-.
    cbn [files trace]. split; [done|].
    split; [intros ev Hin; by apply list_elem_of_singleton in Hin as ->|].
    split; [intros ev p Hin; by rewrite (Hquiet ev Hin)|].
    split; [done|]. split; [done|]. split; [done|].
    split; [apply locate_resolve|apply resolve_join_inside].
  - rewrite (serve_cache_directory _ _ _ Hstat) in Hrun. injection Hrun as <- <-.
    cbn [files trace]. split; [done|].
    split; [intros ev Hin; by apply list_elem_of_singleton in Hin as ->|].
    split; [intros ev p Hin; by rewrite (Hquiet ev Hin)|].
    split; [done|]. split; [done|]. split; [intros _; split; [by eexists|done]|].
    split; [apply locate_resolve|apply resolve_join_inside].
  - rewrite (serve_cache_present _ _ _ _ Hstat) in Hrun. injection Hrun as <- <-.
    cbn [files trace]. split; [done|]. split; [|split; [|split; [done|split]]].
    + intros ev Hin. repeat (apply elem_of_cons in Hin as [->|Hin]; [done|]).
      by apply elem_of_nil in Hin.
    + intros ev p Hin Hread.
      repeat (apply elem_of_cons in Hin as [->|Hin];
              [simpl in Hread; by simplify_eq|]).
      by apply elem_of_nil in Hin.
    + intros data' [= <-]. split; [done|]. by eapply stat_file.
    + split; [done|]. split; [apply locate_resolve|apply resolve_join_inside].
Qed.

(** ** The flag of a fresh answer *)

Section Flag.
Variable json_load : pystr → result json.

(** C2, what the code does.  A run that misses the cache and answers 200
    answers the record [make_meta_json] builds, in which [from_cache] is
    true: the answer of a fresh download carries [from_cache = true], as an
    answer served from the cache does. *)
Theorem fresh_answer_says_from_cache env req fs q k r w body :
  request_query req = Some q →
  get_cache_id q = Some k →
  fs !! resolve (meta_path k) = None →
  run (stream_pcm json_load env req) fs = (r, w) →
  r = Ok (JsonResponse 200 (JDict body)) →
  dict_get (py "from_cache") body = Some (JBool true).
Proof.
  intros Hq Hk Hmeta Hrun Hr.
  apply stream_pcm_outcome in Hrun as (evs & -> & Ho).
  destruct Ho as [Hq'|q' e Hq' Hk'|q' k' text' r Hq' Hk' Hmeta' Hc
                  |q' k' r evs Hq' Hk' Hmeta' Hf]; try congruence.
  destruct Hf as [r pre Hfail _ _|v rest duration lyrics pre levs _ _ _ _].
  - subst r. by apply fetch_failure_status in Hfail as [_ ?].
  - injection Hr as <-. reflexivity.
Qed.

End Flag.

(** ** The claims on the scenarios *)

Example fresh_trace :
  trace (snd Runs.fresh)
  = [ EvCacheId Scenario.query;
      EvExists (meta_path Scenario.key);
      EvYoutubeSearch Scenario.query;
      EvOpenA cookie_path;
      EvExtractInfo {| outtmpl_stem := stem Scenario.key; cookiefile := cookie_path |}
        (py "https://www.youtube.com/watch?v=JGwWNGJdvx8");
      EvToolPut (cache_path Scenario.key (py "webm")) [1];
      EvToolPut (cache_path Scenario.key (py "mp3")) [2];
      EvToolDel (cache_path Scenario.key (py "webm"));
      EvYtmSearch Scenario.query;
      EvYtmGetSong (py "ytm_1");
      EvYtmGetLyrics (py "MPLYt_1");
      EvOpenW (lrc_path Scenario.key);
      EvWrite (lrc_path Scenario.key) (py "The club");
      EvOpenW (meta_path Scenario.key);
      EvWrite (meta_path Scenario.key) (Json.dumps (JDict Scenario.record)) ].
Proof. vm_compute. reflexivity. Qed.

Example fresh_files : files (snd Runs.fresh) !! resolve (cache_path Scenario.key (py "mp3")) = Some [2]
  ∧ files (snd Runs.fresh) !! resolve (cache_path Scenario.key (py "webm")) = None
  ∧ files (snd Runs.fresh) !! resolve (lrc_path Scenario.key) = Some (py "The club")
  ∧ files (snd Runs.fresh) !! resolve (meta_path Scenario.key)
    = Some (Json.dumps (JDict Scenario.record)).
Proof. vm_compute. done. Qed.

Example download_failed_run :
  fst Runs.download_failed
  = Ok (JsonResponse 500 (error_body (py "Download failed: boom")))
  ∧ files (snd Runs.download_failed) !! resolve (meta_path Scenario.key) = None
  ∧ files (snd Runs.download_failed)
      !! resolve (cache_path Scenario.key (py "webm.part")) = Some [1].
Proof. vm_compute. done. Qed.

Example dumps_small :
  Json.dumps (JDict [(py "a", JInt 1); (py "b", JList [JBool true; JNull])])
  = [123; 10; 32; 32; 34; 97; 34; 58; 32; 49; 44; 10;
     32; 32; 34; 98; 34; 58; 32; 91; 10;
     32; 32; 32; 32; 116; 114; 117; 101; 44; 10;
     32; 32; 32; 32; 110; 117; 108; 108; 10;
     32; 32; 93; 10; 125].
Proof. vm_compute. reflexivity. Qed.

Lemma scenario_query : request_query Scenario.req = Some Scenario.query.
Proof. vm_compute. reflexivity. Qed.

Lemma scenario_key : get_cache_id Scenario.query = Some Scenario.key.
Proof. vm_compute. reflexivity. Qed.

Lemma empty_cache_consistent : lyrics_before_metadata ∅.
Proof. intros k _ [x Hx]. by rewrite lookup_empty in Hx. Qed.

Lemma missing_song_is_400_witness :
  (http_status (fst Runs.no_song) = 400
   ↔ arg_song {| arg_song := None; arg_artist := None |} = None
     ∨ arg_song {| arg_song := None; arg_artist := None |} = Some [])
  ∧ (http_status (fst Runs.no_song) = 400 →
     fst Runs.no_song = Ok (JsonResponse 400 (error_body (py "Missing song")))
     ∧ trace (snd Runs.no_song) = [] ∧ files (snd Runs.no_song) = ∅).
Proof.
  apply (missing_song_is_400 Scenario.json_load Scenario.env
           {| arg_song := None; arg_artist := None |} ∅).
  apply surjective_pairing.
Defined.

Lemma cache_hit_serves_stored_record_witness :
  Scenario.cached_fs !! resolve (meta_path Scenario.key)
  = Some (Json.dumps (JDict Scenario.record))
  ∧ trace (snd Runs.again)
    = [EvCacheId Scenario.query; EvExists (meta_path Scenario.key);
       EvOpenR (meta_path Scenario.key)]
  ∧ files (snd Runs.again) = Scenario.cached_fs
  ∧ ∃ body,
      fst Runs.again = Ok (JsonResponse 200 (JDict body))
      ∧ dict_get (py "from_cache") body = Some (JBool true).
Proof.
  assert (Scenario.cached_fs !! resolve (meta_path Scenario.key)
          = Some (Json.dumps (JDict Scenario.record))) as Hfile
    by (vm_compute; reflexivity).
  pose proof (surjective_pairing Runs.again) as Hrun.
  assert (Scenario.json_load (Json.dumps (JDict Scenario.record))
          = Ok (JDict Scenario.record)) as Hload
    by (vm_compute; reflexivity).
  destruct (cache_hit_serves_stored_record Scenario.json_load Scenario.env
              Scenario.req Scenario.cached_fs _ _ _ _ _
              scenario_query scenario_key Hfile Hrun)
    as (Htrace & _ & Hfiles & Hbody & _).
  destruct (Hbody _ Hload) as (body & Hr & _ & Hflag & _).
  split; [exact Hfile|]. split; [exact Htrace|]. split; [exact Hfiles|].
  exists body. split; [exact Hr|exact Hflag].
Defined.

(** C1, the claim as stated fails: the metadata file exists and is
    empty, as [open(meta_path, "w")] leaves it; the run reads it and
    raises, and no record is returned. *)
Lemma cache_hit_on_empty_metadata_raises :
  request_query Scenario.req = Some Scenario.query
  ∧ get_cache_id Scenario.query = Some Scenario.key
  ∧ Runs.broken_fs !! resolve (meta_path Scenario.key) = Some []
  ∧ (∃ e, fst Runs.broken = Raise e ∧ exn_type e = py "JSONDecodeError")
  ∧ trace (snd Runs.broken)
    = [EvCacheId Scenario.query; EvExists (meta_path Scenario.key);
       EvOpenR (meta_path Scenario.key)].
Proof.
  split; [vm_compute; reflexivity|]. split; [vm_compute; reflexivity|].
  split; [vm_compute; reflexivity|]. split; [|vm_compute; reflexivity].
  eexists. split; vm_compute; reflexivity.
Qed.

Lemma failed_run_persists_nothing_witness :
  fst Runs.not_found = Ok (JsonResponse 404 (error_body (py "No video found")))
  ∧ files (snd Runs.not_found) !! resolve (meta_path Scenario.key) = None
  ∧ ∀ env' r' w',
      run (stream_pcm Scenario.json_load env' Scenario.req) (files (snd Runs.not_found))
      = (r', w') →
      ∃ rest,
        trace w' = EvCacheId Scenario.query :: EvExists (meta_path Scenario.key)
                   :: EvYoutubeSearch Scenario.query :: rest.
Proof.
  pose proof (surjective_pairing Runs.not_found) as Hrun.
  assert (fst Runs.not_found
          = Ok (JsonResponse 404 (error_body (py "No video found")))) as Hr
    by (vm_compute; reflexivity).
  destruct (failed_run_persists_nothing Scenario.json_load Scenario.env_no_video
              Scenario.req ∅ _ _ _ Hrun Hr (or_introl eq_refl))
    as (q & k & Hq & Hk & _ & _ & Hend & Hnext).
  assert (q = Scenario.query) as ->
    by (pose proof scenario_query as Hq'; rewrite Hq in Hq'; by injection Hq').
  assert (k = Scenario.key) as ->
    by (pose proof scenario_key as Hk'; rewrite Hk in Hk'; by injection Hk').
  split; [exact Hr|]. split; [exact Hend|exact Hnext].
Defined.

Lemma metadata_implies_lyrics_witness :
  lyrics_before_metadata ∅
  ∧ ∀ pre post, trace (snd Runs.fresh) = pre ++ post →
      lyrics_before_metadata (replay pre ∅)
      ∧ (∀ k ext, is_key k → artifact_ext ext →
           is_Some (replay pre ∅ !! resolve (cache_path k ext)) →
           is_Some (files (snd Runs.fresh) !! resolve (cache_path k ext)))
      ∧ (∀ k rest, is_key k → post = EvOpenW (meta_path k) :: rest →
           ∃ lyrics, EvWrite (lrc_path k) lyrics ∈ pre).
Proof.
  split; [exact empty_cache_consistent|].
  apply (metadata_implies_lyrics Scenario.json_load Scenario.env Scenario.req ∅
           (fst Runs.fresh) (snd Runs.fresh) empty_cache_consistent).
  apply surjective_pairing.
Defined.

Lemma metadata_written_in_place_last_witness :
  (∅ : filesystem) !! resolve (meta_path Scenario.key) = None
  ∧ (∀ pre post, trace (snd Runs.fresh) = pre ++ post →
       EvOpenW (meta_path Scenario.key) ∉ pre →
       replay pre ∅ !! resolve (meta_path Scenario.key) = None)
  ∧ ∃ pre,
      trace (snd Runs.fresh)
      = pre ++ [EvOpenW (meta_path Scenario.key);
                EvWrite (meta_path Scenario.key) (Json.dumps (JDict Scenario.record))]
      ∧ files (snd Runs.fresh) !! resolve (meta_path Scenario.key)
        = Some (Json.dumps (JDict Scenario.record)).
Proof.
  pose proof (surjective_pairing Runs.fresh) as Hrun.
  assert (fst Runs.fresh = Ok (JsonResponse 200 (JDict Scenario.record))) as Hr
    by (vm_compute; reflexivity).
  destruct (metadata_written_in_place_last Scenario.json_load Scenario.env
              Scenario.req ∅ _ _ _ _ scenario_query scenario_key
              (lookup_empty _) Hrun) as [Hbefore Hlast].
  destruct (Hlast _ Hr) as (pre & Htrace & _ & _ & Hfile).
  split; [apply lookup_empty|]. split; [exact Hbefore|].
  exists pre. split; [exact Htrace|exact Hfile].
Defined.

Lemma fresh_reaches_lyric_stage : reaches_lyric_stage (trace (snd Runs.fresh)).
Proof.
  exists (EvYtmSearch Scenario.query). split; [|reflexivity].
  rewrite fresh_trace. do 8 right. left.
Qed.

Lemma lyric_sources_in_order_witness :
  reaches_lyric_stage (trace (snd Runs.fresh))
  ∧ ytm_get_lyrics Scenario.env (py "MPLYt_1")
    = Ok (Some {| data_lyrics := Some (py "The club") |})
  ∧ primary_lyrics Scenario.env Scenario.query = Some (py "The club")
  ∧ files (snd Runs.fresh) !! resolve (lrc_path Scenario.key) = Some (py "The club")
  ∧ ∀ ev, ev ∈ trace (snd Runs.fresh) → is_transcript_call ev = false.
Proof.
  split; [exact fresh_reaches_lyric_stage|]. split; [reflexivity|].
  assert (primary_lyrics Scenario.env Scenario.query = Some (py "The club")) as Hheld
    by reflexivity.
  split; [exact Hheld|].
  destruct (lyric_sources_in_order Scenario.json_load Scenario.env Scenario.req ∅
              (fst Runs.fresh) (snd Runs.fresh)
              (surjective_pairing Runs.fresh) fresh_reaches_lyric_stage)
    as (q & k & v & rest & lyrics & data & Hq & Hk & _ & Hfile & Hlyr).
  assert (q = Scenario.query) as ->
    by (pose proof scenario_query as Hq'; rewrite Hq in Hq'; by injection Hq').
  assert (k = Scenario.key) as ->
    by (pose proof scenario_key as Hk'; rewrite Hk in Hk'; by injection Hk').
  rewrite Hheld in Hlyr. destruct Hlyr as (_ & -> & Hnone).
  split; [exact Hfile|exact Hnone].
Defined.

Lemma no_lyrics_reaches_lyric_stage : reaches_lyric_stage (trace (snd Runs.no_lyrics)).
Proof.
  exists (EvYtmSearch Scenario.query). split; [|reflexivity].
  apply (list_elem_of_lookup_2 _ 8%nat). vm_compute. reflexivity.
Qed.

Lemma lyric_errors_absorbed_witness :
  reaches_lyric_stage (trace (snd Runs.no_lyrics))
  ∧ ∃ q k v rest duration lyrics,
      request_query Scenario.req = Some q ∧ get_cache_id q = Some k
      ∧ youtube_search Scenario.env_no_lyrics q = Ok (v :: rest)
      ∧ fst Runs.no_lyrics = Ok (JsonResponse 200 (JDict (meta_of k v duration)))
      ∧ files (snd Runs.no_lyrics) !! resolve (lrc_path k) = Some lyrics
      ∧ (∀ e, fst (ytm_lyrics Scenario.env_no_lyrics q start_world) = Raise e →
           lyrics = transcript_text Scenario.env_no_lyrics (videoId v))
      ∧ (∀ e, primary_text Scenario.env_no_lyrics q = None →
           transcript_fetch Scenario.env_no_lyrics (videoId v) [py "vi"; py "en"]
           = Raise e →
           lyrics = []).
Proof.
  split; [exact no_lyrics_reaches_lyric_stage|].
  exact (lyric_errors_absorbed Scenario.json_load Scenario.env_no_lyrics Scenario.req ∅
           (fst Runs.no_lyrics) (snd Runs.no_lyrics)
           (surjective_pairing Runs.no_lyrics) no_lyrics_reaches_lyric_stage).
Defined.

(** C6, the claim as stated fails: YouTube Music raises, the exception is
    absorbed and the run answers 200, but the lyrics are the transcript, not
    the empty string. *)
Lemma lyrics_after_primary_exception :
  ytm_search Scenario.env_ytm_down Scenario.query = Raise Scenario.boom
  ∧ http_status (fst Runs.ytm_down) = 200
  ∧ files (snd Runs.ytm_down) !! resolve (lrc_path Scenario.key)
    = Some (py "la" ++ [10] ++ py "li")
  ∧ py "la" ++ [10] ++ py "li" ≠ [].
Proof. vm_compute. done. Qed.

(** C4, the claim as stated fails: the metadata file is opened in place
    and written afterwards, so there is a point of the run where the file
    exists and is empty, while the record is written only next. *)
Lemma metadata_file_observed_empty :
  ∃ pre post,
    trace (snd Runs.fresh) = pre ++ post
    ∧ replay pre ∅ !! resolve (meta_path Scenario.key) = Some []
    ∧ files (snd Runs.fresh) !! resolve (meta_path Scenario.key)
      = Some (Json.dumps (JDict Scenario.record))
    ∧ Json.dumps (JDict Scenario.record) ≠ [].
Proof.
  exists (take 14 (trace (snd Runs.fresh))), (drop 14 (trace (snd Runs.fresh))).
  vm_compute. done.
Qed.

Lemma served_stat :
  stat ∅ Scenario.cached_fs (path_join CACHE_DIR Runs.lrc_name) = File (py "The club").
Proof. vm_compute. reflexivity. Qed.

Lemma serve_cache_reads_joined_path_witness :
  files (snd Runs.served) = Scenario.cached_fs
  ∧ (∀ ev, ev ∈ trace (snd Runs.served) → written_path ev = None)
  ∧ (∀ ev p, ev ∈ trace (snd Runs.served) → read_path ev = Some p →
       p = path_join CACHE_DIR Runs.lrc_name)
  ∧ fst Runs.served
    = Ok (FileResponse (mimetype_of Runs.lrc_name) (chunks 4096 (py "The club")))
  ∧ Scenario.cached_fs !! resolve (path_join CACHE_DIR Runs.lrc_name)
    = Some (py "The club")
  ∧ inside_cache (resolve (path_join CACHE_DIR Runs.lrc_name)).
Proof.
  destruct (serve_cache_reads_joined_path ∅ Runs.lrc_name Scenario.cached_fs
              (fst Runs.served) (snd Runs.served) (surjective_pairing Runs.served))
    as (Hfiles & Hwrites & Hreads & _ & Hfile & _ & _ & Hinside).
  destruct (Hfile _ served_stat) as [Hr Hdata].
  split; [exact Hfiles|]. split; [exact Hwrites|]. split; [exact Hreads|].
  split; [exact Hr|]. split; [exact Hdata|].
  apply Hinside.
  - vm_compute. reflexivity.
  - vm_compute. intros Hin.
    repeat (apply elem_of_cons in Hin as [Hin|Hin]; [discriminate|]).
    by apply elem_of_nil in Hin.
Defined.

Example served_lyrics :
  fst Runs.served
  = Ok (FileResponse (py "text/plain; charset=utf-8") [py "The club"]).
Proof. vm_compute. reflexivity. Qed.

(** The cache directory itself exists: the answer is a response whose
    body raises. *)
Example served_directory :
  stat ∅ Scenario.cached_fs (py "music_cache/.") = Dir
  ∧ (∃ e, fst Runs.dot = Ok (FailingResponse (py "application/octet-stream") e)
          ∧ exn_type e = py "IsADirectoryError")
  ∧ trace (snd Runs.dot) = [EvExists (py "music_cache/.")].
Proof.
  split; [vm_compute; reflexivity|]. split; [|vm_compute; reflexivity].
  eexists. split; vm_compute; reflexivity.
Qed.

(** A way through a directory leads to the file only when the directory
    is there. *)
Example served_through_nothing :
  resolve (path_join CACHE_DIR (py "sub/../" ++ Runs.lrc_name))
  = resolve (path_join CACHE_DIR Runs.lrc_name)
  ∧ fst Runs.through_nothing = Ok (JsonResponse 404 (error_body (py "file not found")))
  ∧ fst Runs.through_sub
    = Ok (FileResponse (py "text/plain; charset=utf-8") [py "The club"]).
Proof. vm_compute. done. Qed.

Example served_under_a_file :
  fst Runs.under_a_file = Ok (JsonResponse 404 (error_body (py "file not found"))).
Proof. vm_compute. reflexivity. Qed.

Lemma escaped_stat :
  stat ∅ Runs.outside_fs (path_join CACHE_DIR Runs.escaping_name) = File (py "import os").
Proof. vm_compute. reflexivity. Qed.

(** C8, the claim as stated fails: with [..] in the file name the joined
    path leaves the cache root, and the file there is read and served. *)
Lemma serve_cache_leaves_cache_root :
  locate ∅ Runs.outside_fs (path_join CACHE_DIR Runs.escaping_name)
  = Some (false, [py "music_server.py"])
  ∧ ¬ inside_cache (false, [py "music_server.py"])
  ∧ Runs.escaped
    = (Ok (FileResponse (py "application/octet-stream") [py "import os"]),
       World Runs.outside_fs
         [EvExists (path_join CACHE_DIR Runs.escaping_name);
          EvOpenR (path_join CACHE_DIR Runs.escaping_name)]).
Proof.
  split; [vm_compute; reflexivity|]. split.
  - intros [rest Hrest]. vm_compute in Hrest. discriminate.
  - unfold Runs.escaped. rewrite (serve_cache_present _ _ _ _ escaped_stat).
    reflexivity.
Qed.

Lemma fresh_answer_says_from_cache_witness :
  (∅ : filesystem) !! resolve (meta_path Scenario.key) = None
  ∧ fst Runs.fresh = Ok (JsonResponse 200 (JDict Scenario.record))
  ∧ dict_get (py "from_cache") Scenario.record = Some (JBool true).
Proof.
  assert (fst Runs.fresh = Ok (JsonResponse 200 (JDict Scenario.record))) as Hr
    by (vm_compute; reflexivity).
  split; [apply lookup_empty|]. split; [exact Hr|].
  exact (fresh_answer_says_from_cache Scenario.json_load Scenario.env Scenario.req ∅
           _ _ _ _ _ scenario_query scenario_key (lookup_empty _)
           (surjective_pairing Runs.fresh) Hr).
Defined.

(** * More of the code *)

(** ** [serve_cache]: the content type and the body *)

Lemma startswith_app_le p x y :
  (length p ≤ length x)%nat → startswith p (x ++ y) = startswith p x.
Proof.
  revert x. induction p as [|a p IH]; intros [|b x] Hlen; simpl in *; try done; [lia|].
  rewrite IH by lia. done.
Qed.

Lemma endswith_app_le s a b :
  (length b ≤ length a)%nat → endswith (s ++ a) b = endswith a b.
Proof.
  intros Hlen. unfold endswith. rewrite reverse_app.
  apply startswith_app_le. by rewrite !length_reverse.
Qed.

Lemma chunked_concat n fuel (bs : list N) :
  (0 < n)%nat → (length bs ≤ fuel)%nat → concat (chunked n fuel bs) = bs.
Proof.
  intros Hn. revert bs. induction fuel as [|fuel IH]; intros bs Hlen.
  - destruct bs; [done|simpl in Hlen; lia].
  - destruct bs as [|b bs]; [done|].
    cbn [chunked concat]. rewrite IH; [apply take_drop|].
    rewrite length_drop. simpl in *. lia.
Qed.

Lemma chunked_sizes n fuel (bs : list N) :
  (0 < n)%nat →
  Forall (fun c => c ≠ [] ∧ (length c ≤ n)%nat) (chunked n fuel bs).
Proof.
  intros Hn. revert bs. induction fuel as [|fuel IH]; intros bs.
  - destruct bs; constructor.
  - destruct bs as [|b bs]; [constructor|].
    cbn [chunked]. constructor; [|apply IH]. split.
    + destruct n; [lia|done].
    + rewrite length_take. lia.
Qed.

(** X2.  When a regular file is at the joined path, [serve_cache]
    answers with the bytes of the file and nothing else: the pieces it
    yields, put end to end, are the content of that file; no piece is empty
    and none is longer than 4096. *)
Theorem served_body_is_the_file dirs filename fs data r w :
  stat dirs fs (path_join CACHE_DIR filename) = File data →
  run (serve_cache dirs filename) fs = (r, w) →
  ∃ body,
    r = Ok (FileResponse (mimetype_of filename) body)
    ∧ concat body = data
    ∧ Forall (fun c => c ≠ [] ∧ (length c ≤ 4096)%nat) body.
Proof.
  intros Hfile Hrun. rewrite (serve_cache_present _ _ _ _ Hfile) in Hrun.
  injection Hrun as <- _. eexists. split; [reflexivity|]. split.
  - apply chunked_concat; lia.
  - apply chunked_sizes. lia.
Qed.

(** ** Line 46: the query *)

Lemma lstrip_spaces ws : Forall (fun c => is_space c = true) ws → lstrip ws = [].
Proof. induction 1 as [|c ws Hc _ IH]; [done|]. simpl. by rewrite Hc. Qed.

Lemma lstrip_space_l ws s :
  Forall (fun c => is_space c = true) ws → lstrip (ws ++ s) = lstrip s.
Proof. induction 1 as [|c ws Hc _ IH]; [done|]. simpl. by rewrite Hc. Qed.

Lemma lstrip_app s t :
  lstrip (s ++ t) = match lstrip s with [] => lstrip t | _ => lstrip s ++ t end.
Proof.
  induction s as [|c s IH]; [done|].
  simpl. destruct (is_space c); [exact IH|done].
Qed.

Lemma lstrip_head s c rest : lstrip s = c :: rest → is_space c = false.
Proof.
  induction s as [|a s IH]; [done|].
  simpl. destruct (is_space a) eqn:Ha; [exact IH|]. by intros [= <- _].
Qed.

Lemma lstrip_suffix s : ∃ ws, s = ws ++ lstrip s.
Proof.
  induction s as [|a s [ws IH]]; [by exists []|].
  simpl. destruct (is_space a).
  - exists (a :: ws). simpl. by rewrite <- IH.
  - by exists [].
Qed.

Lemma strip_space_l ws s :
  Forall (fun c => is_space c = true) ws → strip (ws ++ s) = strip s.
Proof. intros H. unfold strip. by rewrite lstrip_space_l. Qed.

Lemma strip_space_r ws s :
  Forall (fun c => is_space c = true) ws → strip (s ++ ws) = strip s.
Proof.
  intros H. unfold strip. rewrite lstrip_app.
  destruct (lstrip s) as [|c rest] eqn:Hs.
  - by rewrite (lstrip_spaces ws) by done.
  - rewrite reverse_app, lstrip_space_l; [done|].
    by apply Forall_reverse.
Qed.

Lemma strip_spaces ws : Forall (fun c => is_space c = true) ws → strip ws = [].
Proof. intros H. unfold strip. by rewrite (lstrip_spaces ws) by done. Qed.

Lemma strip_ends s :
  (∀ c, head (strip s) = Some c → is_space c = false)
  ∧ (∀ c, last (strip s) = Some c → is_space c = false).
Proof.
  unfold strip.
  set (inner := lstrip (reverse (lstrip s))).
  split; intros c Hc.
  - rewrite head_reverse in Hc.
    destruct (lstrip_suffix (reverse (lstrip s))) as [ws Hws]. fold inner in Hws.
    assert (last (reverse (lstrip s)) = Some c) as Hlast.
    { rewrite Hws. destruct inner as [|a inner'] eqn:Hin; [done|].
      rewrite last_app. fold (last (a :: inner')). by rewrite Hc. }
    rewrite last_reverse in Hlast.
    destruct (lstrip s) as [|a rest] eqn:Hs; [done|].
    injection Hlast as ->. by eapply lstrip_head.
  - rewrite last_reverse in Hc.
    destruct inner as [|a rest] eqn:Hin; [done|].
    injection Hc as ->. by eapply lstrip_head.
Qed.

(** X5.  White space around the request does not change the query, hence
    not the cache key: leading white space of [song] and trailing white
    space of [artist] are stripped, and the query neither starts nor ends
    with a white-space character. *)
Theorem query_ignores_surrounding_space (ws1 ws2 song artist : pystr) :
  Forall (fun c => is_space c = true) ws1 →
  Forall (fun c => is_space c = true) ws2 →
  query_of (ws1 ++ song) (artist ++ ws2) = query_of song artist
  ∧ get_cache_id (query_of (ws1 ++ song) (artist ++ ws2))
    = get_cache_id (query_of song artist)
  ∧ (∀ c, head (query_of song artist) = Some c → is_space c = false)
  ∧ (∀ c, last (query_of song artist) = Some c → is_space c = false).
Proof.
  intros H1 H2.
  assert (query_of (ws1 ++ song) (artist ++ ws2) = query_of song artist) as Heq.
  { unfold query_of. rewrite <- (app_assoc ws1), strip_space_l by done.
    rewrite !app_assoc. rewrite strip_space_r by done. done. }
  split; [exact Heq|]. split; [by rewrite Heq|]. apply strip_ends.
Qed.

Lemma persist_meta_file k lyrics data fs :
  replay (persist_events k lyrics data) fs !! resolve (meta_path k)
  = Some (Json.dumps (JDict data)).
Proof.
  unfold persist_events. cbn [replay foldl apply_event]. fold (meta_path k).
  rewrite lookup_insert_eq. by rewrite lookup_insert_eq.
Qed.

Section More.
Variable json_load : pystr → result json.

(** X6.  A [song] made of white space only is not a missing song: the
    request is not answered 400; its query is the empty string, so it is
    looked up (and searched for) under the key of the empty string. *)
Theorem blank_song_is_looked_up env req song fs r w :
  arg_song req = Some song → song ≠ [] →
  Forall (fun c => is_space c = true) song →
  Forall (fun c => is_space c = true) (default [] (arg_artist req)) →
  run (stream_pcm json_load env req) fs = (r, w) →
  request_query req = Some []
  ∧ http_status r ≠ 400
  ∧ ∃ rest,
      trace w = EvCacheId []
                :: EvExists (meta_path (py "d41d8cd98f00b204e9800998ecf8427e"))
                :: rest.
Proof.
  intros Hsong Hne Hs Ha Hrun.
  assert (request_query req = Some []) as Hq.
  { unfold request_query. rewrite Hsong. destruct song as [|c song]; [done|].
    f_equal. unfold query_of. apply strip_spaces.
    apply Forall_app. split; [done|]. apply Forall_app. split; [|done].
    by repeat constructor. }
  assert (get_cache_id [] = Some (py "d41d8cd98f00b204e9800998ecf8427e")) as Hk
    by (vm_compute; reflexivity).
  apply stream_pcm_outcome in Hrun as (evs & -> & Ho). cbn [trace].
  split; [done|].
  destruct Ho as [Hq'|q' e Hq' Hk'|q' k' text' r Hq' Hk' Hmeta' Hc
                  |q' k' r evs Hq' Hk' Hmeta' Hf]; try congruence.
  - assert (q' = []) as -> by congruence.
    assert (k' = py "d41d8cd98f00b204e9800998ecf8427e") as -> by congruence.
    split; [by apply cached_status in Hc|]. by eexists.
  - assert (q' = []) as -> by congruence.
    assert (k' = py "d41d8cd98f00b204e9800998ecf8427e") as -> by congruence.
    split; [|by eexists].
    destruct Hf as [r pre Hfail _ _|]; [|done].
    by apply fetch_failure_status in Hfail as [? _].
Qed.

(** X10.  [stream_pcm] answers with JSON only: either 200 with an
    object, or 400, 404 or 500 with an object that has the one key
    [error]. *)
Theorem stream_pcm_answers env req fs r w resp :
  run (stream_pcm json_load env req) fs = (r, w) →
  r = Ok resp →
  (∃ body, resp = JsonResponse 200 (JDict body))
  ∨ (∃ status msg,
       resp = JsonResponse status (JDict [(py "error", JStr msg)])
       ∧ (status = 400 ∨ status = 404 ∨ status = 500)).
Proof.
  intros Hrun Hr. apply stream_pcm_outcome in Hrun as (evs & -> & Ho).
  destruct Ho as [Hq'|q' e Hq' Hk'|q' k' text' r Hq' Hk' Hmeta' Hc
                  |q' k' r evs Hq' Hk' Hmeta' Hf].
  - injection Hr as <-. right. eexists _, _. split; [reflexivity|auto].
  - done.
  - destruct Hc; [|done]. injection Hr as <-. left. by eexists.
  - destruct Hf as [r pre Hfail _ _|].
    + destruct Hfail; try done; injection Hr as <-; right;
        (eexists _, _; split; [reflexivity|auto]).
    + injection Hr as <-. left. by eexists.
Qed.

(** X12.  A metadata file that does not hold a JSON object blocks its
    key: the request raises (Flask answers 500) after reading the file,
    calls no collaborator and writes nothing, so the file stays as it is and
    the same request raises again, whatever the collaborators would
    answer. *)
Theorem broken_metadata_blocks_the_key env req fs q k text r w :
  request_query req = Some q →
  get_cache_id q = Some k →
  fs !! resolve (meta_path k) = Some text →
  (∀ d, json_load text ≠ Ok (JDict d)) →
  run (stream_pcm json_load env req) fs = (r, w) →
  (∃ e, r = Raise e)
  ∧ http_status r = 500
  ∧ files w = fs
  ∧ Forall (fun ev => is_external ev = false ∧ written_path ev = None) (trace w)
  ∧ ∀ env' r' w',
      run (stream_pcm json_load env' req) (files w) = (r', w') → ∃ e', r' = Raise e'.
Proof.
  intros Hq Hk Hmeta Hbroken Hrun.
  assert (∀ env0 r0 w0,
            run (stream_pcm json_load env0 req) fs = (r0, w0) →
            (∃ e, r0 = Raise e) ∧ files w0 = fs
            ∧ Forall (fun ev => is_external ev = false ∧ written_path ev = None)
                (trace w0)) as Hall.
  { intros env0 r0 w0 Hrun0.
    apply stream_pcm_outcome in Hrun0 as (evs & -> & Ho). cbn [trace files].
    destruct Ho as [Hq'|q' e Hq' Hk'|q' k' text' r0 Hq' Hk' Hmeta' Hc
                    |q' k' r0 evs Hq' Hk' Hmeta' Hf]; try congruence.
    - assert (q' = q) as -> by congruence.
      assert (k' = k) as -> by congruence.
      assert (text' = text) as -> by congruence.
      destruct Hc as [d Hd|e _]; [by destruct (Hbroken d)|].
      split; [by eexists|]. split; [done|].
      by repeat first [apply Forall_nil|apply Forall_cons; split]. }
  destruct (Hall _ _ _ Hrun) as ([e ->] & Hfiles & Htrace).
  split; [by eexists|]. split; [done|]. split; [done|]. split; [done|].
  intros env' r' w' Hrun'. rewrite Hfiles in Hrun'.
  by destruct (Hall _ _ _ Hrun') as (? & _).
Qed.

(** X4.  After a request has been answered 200, the same request is
    answered from the cache with the same body, whatever the collaborators
    would answer now: no collaborator is called, nothing is written.  This
    holds when [json.load] gives back the record [json.dump] wrote. *)
Theorem repeated_request_is_served_from_cache env env' req fs r w body r' w' :
  run (stream_pcm json_load env req) fs = (r, w) →
  r = Ok (JsonResponse 200 (JDict body)) →
  json_load (Json.dumps (JDict body)) = Ok (JDict body) →
  run (stream_pcm json_load env' req) (files w) = (r', w') →
  r' = r
  ∧ files w' = files w
  ∧ Forall (fun ev => is_external ev = false ∧ written_path ev = None) (trace w').
Proof.
  intros Hrun Hr Hload Hrun'.
  apply stream_pcm_outcome in Hrun as (evs & -> & Ho). cbn [trace files] in *.
  assert (∃ q k text,
            request_query req = Some q ∧ get_cache_id q = Some k
            ∧ replay evs fs !! resolve (meta_path k) = Some text
            ∧ cached json_load text r) as (q & k & text & Hq & Hk & Hfile & Hc).
  { destruct Ho as [Hq|q e Hq Hk|q k text r Hq Hk Hmeta Hc|q k r evs Hq Hk Hmeta Hf];
      try congruence.
    - exists q, k, text. by repeat split.
    - destruct Hf as [r pre Hfail _ _|v rest duration lyrics pre levs _ _ _ _].
      { subst r. by apply fetch_failure_status in Hfail as [_ ?]. }
      injection Hr as <-.
      exists q, k, (Json.dumps (JDict (meta_of k v duration))).
      split; [done|]. split; [done|]. split.
      + rewrite !app_assoc, replay_app. apply persist_meta_file.
      + by apply (CachedRecord json_load _ (meta_of k v duration)). }
  apply stream_pcm_outcome in Hrun' as (evs' & -> & Ho'). cbn [trace files].
  destruct Ho' as [Hq'|q' e Hq' Hk'|q' k' text' r' Hq' Hk' Hmeta' Hc'
                   |q' k' r' evs' Hq' Hk' Hmeta' Hf']; try congruence.
  - assert (q' = q) as -> by congruence.
    assert (k' = k) as -> by congruence.
    assert (text' = text) as -> by congruence.
    split; [|split; [done|]].
    + destruct Hc as [d Hd|e _]; [|done]. destruct Hc' as [d' Hd'|e' Hb'].
      * by assert (d' = d) as -> by congruence.
      * by destruct (Hb' d).
    + by repeat first [apply Forall_nil|apply Forall_cons; split].
Qed.

End More.

(** ** One key per run *)

Lemma cache_file_not_cookie k ext c :
  is_key k → (47 ∉ ext) →
  c = cookie_path ∨ c = writable_cookie_path →
  resolve c ≠ resolve (cache_path k ext).
Proof.
  intros Hk Hext Hc. rewrite resolve_cache_path by done.
  destruct Hc as [-> | ->].
  - rewrite resolve_cookie_path. discriminate.
  - rewrite resolve_writable_cookie_path. discriminate.
Qed.

Lemma cache_file_other_key k k' ext ext' :
  is_key k → is_key k' → k' ≠ k → (47 ∉ ext) → (47 ∉ ext') →
  resolve (cache_path k ext) ≠ resolve (cache_path k' ext').
Proof.
  intros Hk Hk' Hne Hext Hext' Heq.
  apply cache_path_inj in Heq as [-> _]; done.
Qed.

Lemma off_key_fetch_event k k' ev :
  is_key k → is_key k' → k' ≠ k → fetch_event k ev → off_key k' ev.
Proof.
  intros Hk Hk' Hne Hev fs ext Hext.
  destruct Hev as [q| | |opts url|e data|e|c data Hc]; simpl; try done.
  - destruct (fs !! resolve cookie_path); [done|].
    apply lookup_insert_ne, cache_file_not_cookie; auto.
  - destruct (fs !! resolve cookie_path); [|done].
    apply lookup_insert_ne, cache_file_not_cookie; auto.
  - apply lookup_insert_ne, cache_file_other_key; auto using ext_str_no_slash.
  - apply lookup_delete_ne, cache_file_other_key; auto using ext_str_no_slash.
  - by apply lookup_insert_ne, cache_file_not_cookie.
Qed.

Lemma off_key_persist_events k k' lyrics data :
  is_key k → is_key k' → k' ≠ k → Forall (off_key k') (persist_events k lyrics data).
Proof.
  intros Hk Hk' Hne. unfold persist_events.
  repeat first [apply Forall_nil|apply Forall_cons; split]; [..|done];
    unfold off_key; intros fs ext Hext; simpl;
    apply lookup_insert_ne, cache_file_other_key; auto; no_slash.
Qed.

Lemma replay_off_key k evs fs ext :
  Forall (off_key k) evs → (47 ∉ ext) →
  replay evs fs !! resolve (cache_path k ext) = fs !! resolve (cache_path k ext).
Proof.
  intros Hall Hext. revert fs.
  induction Hall as [|ev evs Hev _ IH]; intros fs; [done|].
  simpl. rewrite IH. by apply Hev.
Qed.

Section Frame.
Variable json_load : pystr → result json.

(** X11.  A run only touches the files of its own key: in the cache
    directory, every file named after another key, whatever its extension,
    is after the run what it was before. *)
Theorem other_keys_untouched env req fs q k r w k' ext :
  request_query req = Some q →
  get_cache_id q = Some k →
  is_key k' → k' ≠ k → (47 ∉ ext) →
  run (stream_pcm json_load env req) fs = (r, w) →
  files w !! resolve (cache_path k' ext) = fs !! resolve (cache_path k' ext).
Proof.
  intros Hq Hk Hk' Hne Hext Hrun.
  pose proof (get_cache_id_is_key _ _ Hk) as Hkey.
  apply stream_pcm_outcome in Hrun as (evs & -> & Ho). cbn [files].
  destruct Ho as [Hq'|q' e Hq' Hk0|q' k0 text' r Hq' Hk0 Hmeta' Hc
                  |q' k0 r evs Hq' Hk0 Hmeta' Hf]; try done.
  assert (q' = q) as -> by congruence.
  assert (k0 = k) as -> by congruence.
  rewrite replay_app. cbn [replay foldl apply_event].
  apply replay_off_key; [|done].
  destruct Hf as [r pre Hfail Hpre _|v rest duration lyrics pre levs _ Hpre _ Hlyr].
  - eapply Forall_impl; [exact Hpre|]. intros ev. by apply off_key_fetch_event.
  - apply Forall_app. split; [|apply Forall_app; split].
    + eapply Forall_impl; [exact Hpre|]. intros ev. by apply off_key_fetch_event.
    + eapply Forall_impl; [exact (proj1 Hlyr)|]. intros ev Hev fs' ext' _.
      by destruct ev.
    + by apply off_key_persist_events.
Qed.

End Frame.

(** ** The stages of a miss, one by one *)

Lemma runs_search_raised env q k w e :
  youtube_search env q = Raise e →
  runs (resolve_and_fetch env q k) w (Raise e) [EvYoutubeSearch q].
Proof.
  intros Hs. unfold resolve_and_fetch. rewrite Hs.
  eapply runs_bind_raise. apply runs_call.
Qed.

Lemma runs_cookie_missing env q k w v rest :
  youtube_search env q = Ok (v :: rest) →
  can_append env cookie_path = false →
  files w !! resolve cookie_path = None →
  runs (resolve_and_fetch env q k) w
       (Raise (Exn (py "FileNotFoundError") cookie_path)) [EvYoutubeSearch q].
Proof.
  intros Hs Ha Hc. unfold resolve_and_fetch. rewrite Hs.
  eapply runs_eq.
  - eapply runs_bind_ok; [apply runs_call|].
    eapply runs_bind_raise.
    unfold writable_cookie_file. rewrite Ha.
    eapply runs_bind_raise. unfold runs, shutil_copy.
    change (files (advance w [EvYoutubeSearch q])) with (files w).
    rewrite Hc, advance_nil. reflexivity.
  - apply app_nil_r.
Qed.

Lemma runs_cookie_used env w c cev :
  cookie_used env (files w) c cev → runs (writable_cookie_file env) w (Ok c) [cev].
Proof.
  unfold writable_cookie_file.
  intros [(Ha & -> & ->)|(Ha & [data Hd] & -> & ->)]; rewrite Ha.
  - eapply runs_eq; [eapply runs_bind_ok; [apply runs_emit|apply runs_ret]|done].
  - unfold shutil_copy, bind, runs. rewrite Hd. reflexivity.
Qed.

Lemma runs_download env opts url w :
  runs (ydl_extract_info env opts url) w (snd (extract_info env opts url))
       (EvExtractInfo opts url :: (tool_event opts <$> fst (extract_info env opts url))).
Proof.
  unfold ydl_extract_info.
  destruct (extract_info env opts url) as [effects answer]. cbn [fst snd].
  eapply runs_eq.
  - eapply runs_bind_ok; [apply runs_emit|].
    eapply runs_bind_ok; [apply runs_emit_all|apply runs_lift].
  - by rewrite app_nil_r.
Qed.

(** A miss that finds a video and has a cookie file: the search, the
    cookie file, the download, and then either the error answer or the
    lyric and persist stages. *)
Lemma runs_found env q k w v rest c cev :
  youtube_search env q = Ok (v :: rest) →
  cookie_used env (files w) c cev →
  ∃ r tail,
    runs (resolve_and_fetch env q k) w r
      ([EvYoutubeSearch q; cev] ++ download_events env k c v ++ tail)
    ∧ match download_answer env k c v with
      | Raise e =>
          r = Ok (JsonResponse 500 (error_body (py "Download failed: " ++ exn_str e)))
          ∧ tail = []
      | Ok i =>
          let data := meta_of k v (default (JInt 0) (info_duration i)) in
          ∃ lyrics levs,
            lyric_stage env q (videoId v) lyrics levs
            ∧ r = Ok (JsonResponse 200 (JDict data))
            ∧ tail = levs ++ persist_events k lyrics data
      end.
Proof.
  intros Hs Hc. unfold resolve_and_fetch. rewrite Hs.
  set (w1 := advance w [EvYoutubeSearch q]).
  assert (runs (writable_cookie_file env) w1 (Ok c) [cev]) as Hrc
    by by apply runs_cookie_used.
  set (w2 := advance w1 [cev]).
  pose proof (runs_download env (download_opts k c) (watch_url v) w2) as Hrd.
  fold (download_answer env k c v) (download_events env k c v) in Hrd.
  destruct (download_answer env k c v) as [i|e].
  - set (w3 := advance w2 (download_events env k c v ++ [])).
    destruct (runs_fetch_lyrics env q (videoId v) w3) as (lyrics & levs & Hrl & Hlyr).
    eexists _, _. split;
      [|cbv zeta; exists lyrics, levs; split; [exact Hlyr|split; reflexivity]].
    eapply runs_eq.
    + eapply runs_bind_ok; [apply runs_call|].
      eapply runs_bind_ok; [exact Hrc|].
      eapply runs_bind_ok.
      { apply runs_try_ok. eapply runs_bind_ok; [exact Hrd|apply runs_ret]. }
      eapply runs_bind_ok; [exact Hrl|apply runs_persist].
    + by rewrite app_nil_r.
  - eexists _, _. split; [|by split].
    eapply runs_eq.
    + eapply runs_bind_ok; [apply runs_call|].
      eapply runs_bind_ok; [exact Hrc|].
      eapply runs_bind_ok.
      { eapply runs_try_raise; [|apply runs_ret].
        eapply runs_bind_raise. exact Hrd. }
      apply runs_ret.
    + by rewrite !app_nil_r.
Qed.

Section Miss.
Variable json_load : pystr → result json.

Lemma runs_stream_pcm_miss env req fs q k r evs :
  request_query req = Some q →
  get_cache_id q = Some k →
  fs !! resolve (meta_path k) = None →
  runs (resolve_and_fetch env q k)
       (advance (World fs []) [EvCacheId q; EvExists (meta_path k)]) r evs →
  runs (stream_pcm json_load env req) (World fs [])
       r ([EvCacheId q; EvExists (meta_path k)] ++ evs).
Proof.
  intros Hq Hk Hmeta Hr. unfold stream_pcm.
  unfold request_query in Hq.
  destruct (arg_song req) as [[|c song]|] eqn:Hsong; try done.
  injection Hq as Hq. rewrite Hq, Hk.
  change ([EvCacheId q; EvExists (meta_path k)] ++ evs)
    with ([EvCacheId q] ++ [EvExists (meta_path k)] ++ evs).
  eapply runs_bind_ok; [apply runs_call|].
  eapply runs_bind_ok; [apply runs_path_exists|].
  fold (meta_path k).
  set (w1 := advance (World fs []) [EvCacheId q]).
  replace (bool_decide (is_Some (files w1 !! resolve (meta_path k)))) with false.
  - exact Hr.
  - symmetry. apply bool_decide_eq_false_2. intros [text Ht].
    change (files w1 !! resolve (meta_path k)) with (fs !! resolve (meta_path k)) in Ht.
    congruence.
Qed.

(** What a miss that finds a video and has a cookie file does, from the
    files [fs]. *)
Lemma stream_pcm_found env req fs q k v rest c cev r w :
  request_query req = Some q →
  get_cache_id q = Some k →
  fs !! resolve (meta_path k) = None →
  youtube_search env q = Ok (v :: rest) →
  cookie_used env fs c cev →
  run (stream_pcm json_load env req) fs = (r, w) →
  ∃ tail,
    w = World (replay ([EvCacheId q; EvExists (meta_path k); EvYoutubeSearch q; cev]
                       ++ download_events env k c v ++ tail) fs)
              ([EvCacheId q; EvExists (meta_path k); EvYoutubeSearch q; cev]
               ++ download_events env k c v ++ tail)
    ∧ match download_answer env k c v with
      | Raise e =>
          r = Ok (JsonResponse 500 (error_body (py "Download failed: " ++ exn_str e)))
          ∧ tail = []
      | Ok i =>
          let data := meta_of k v (default (JInt 0) (info_duration i)) in
          ∃ lyrics levs,
            lyric_stage env q (videoId v) lyrics levs
            ∧ r = Ok (JsonResponse 200 (JDict data))
            ∧ tail = levs ++ persist_events k lyrics data
      end.
Proof.
  intros Hq Hk Hmeta Hs Hc Hrun.
  destruct (runs_found env q k
              (advance (World fs []) [EvCacheId q; EvExists (meta_path k)])
              v rest c cev Hs Hc) as (r' & tail & Hr & Hend).
  pose proof (runs_stream_pcm_miss env req fs q k _ _ Hq Hk Hmeta Hr) as Hall.
  destruct (runs_inv _ _ _ _ _ _ Hall Hrun) as [-> ->].
  exists tail. split; [|exact Hend]. by rewrite advance_start.
Qed.

End Miss.

(** ** Exceptions no [try] catches *)

Section Uncaught.
Variable json_load : pystr → result json.

(** X14.  The YouTube search is outside every [try]: when it raises, the
    exception leaves the handler (Flask answers 500) right after the
    search; nothing else is called and no file is touched. *)
Theorem search_exception_is_uncaught env req fs q k e r w :
  request_query req = Some q →
  get_cache_id q = Some k →
  fs !! resolve (meta_path k) = None →
  youtube_search env q = Raise e →
  run (stream_pcm json_load env req) fs = (r, w) →
  r = Raise e
  ∧ http_status r = 500
  ∧ trace w = [EvCacheId q; EvExists (meta_path k); EvYoutubeSearch q]
  ∧ files w = fs.
Proof.
  intros Hq Hk Hmeta Hs Hrun.
  pose proof (runs_stream_pcm_miss json_load env req fs q k _ _ Hq Hk Hmeta
                (runs_search_raised env q k _ e Hs)) as Hall.
  destruct (runs_inv _ _ _ _ _ _ Hall Hrun) as [-> ->].
  by rewrite advance_start.
Qed.

(** X7.  When the cookie file can not be opened for appending and is not
    there to be copied, [shutil.copy] raises outside every [try]: the
    request ends with [FileNotFoundError] (Flask answers 500) after the
    search, before any download; no file is touched. *)
Theorem unusable_cookie_file_is_uncaught env req fs q k v rest r w :
  request_query req = Some q →
  get_cache_id q = Some k →
  fs !! resolve (meta_path k) = None →
  youtube_search env q = Ok (v :: rest) →
  can_append env cookie_path = false →
  fs !! resolve cookie_path = None →
  run (stream_pcm json_load env req) fs = (r, w) →
  r = Raise (Exn (py "FileNotFoundError") cookie_path)
  ∧ http_status r = 500
  ∧ trace w = [EvCacheId q; EvExists (meta_path k); EvYoutubeSearch q]
  ∧ files w = fs.
Proof.
  intros Hq Hk Hmeta Hs Ha Hc Hrun.
  pose proof (runs_stream_pcm_miss json_load env req fs q k _ _ Hq Hk Hmeta
                (runs_cookie_missing env q k
                   (advance (World fs []) [EvCacheId q; EvExists (meta_path k)])
                   v rest Hs Ha Hc)) as Hall.
  destruct (runs_inv _ _ _ _ _ _ Hall Hrun) as [-> ->].
  by rewrite advance_start.
Qed.

End Uncaught.

(** ** The download *)

Lemma cookie_event_plain env fs c cev :
  cookie_used env fs c cev →
  is_download cev = false ∧ is_lyric_call cev = false.
Proof. by intros [(_ & _ & ->)|(_ & _ & _ & ->)]. Qed.

Lemma tool_event_plain opts eff :
  is_download (tool_event opts eff) = false
  ∧ is_lyric_call (tool_event opts eff) = false.
Proof. by destruct eff. Qed.

Lemma lyric_call_not_download ev : is_lyric_call ev = true → is_download ev = false.
Proof. by destruct ev. Qed.

Lemma filter_download_none evs :
  Forall (fun ev => is_download ev = false) evs → List.filter is_download evs = [].
Proof. induction 1 as [|ev evs Hev _ IH]; [done|]. simpl. by rewrite Hev. Qed.

Section Download.
Variable json_load : pystr → result json.

(** X8.  A miss downloads exactly once, and what it downloads is the
    first result of the search: the calls to yt-dlp in the run are one
    call, which comes right after the search and the cookie file, for the
    watch address of that video, with the output template of the key and
    the cookie file chosen.  That cookie file exists when the download
    starts, and when it is the copy it holds what the original holds. *)
Theorem download_targets_first_hit env req fs q k v rest c cev r w :
  request_query req = Some q →
  get_cache_id q = Some k →
  fs !! resolve (meta_path k) = None →
  youtube_search env q = Ok (v :: rest) →
  cookie_used env fs c cev →
  run (stream_pcm json_load env req) fs = (r, w) →
  (∃ tail,
     trace w = [EvCacheId q; EvExists (meta_path k); EvYoutubeSearch q; cev;
                EvExtractInfo (download_opts k c) (watch_url v)] ++ tail)
  ∧ List.filter is_download (trace w)
    = [EvExtractInfo (download_opts k c) (watch_url v)]
  ∧ is_Some (replay [EvCacheId q; EvExists (meta_path k); EvYoutubeSearch q; cev] fs
             !! resolve c)
  ∧ (can_append env cookie_path = false →
     replay [EvCacheId q; EvExists (meta_path k); EvYoutubeSearch q; cev] fs
       !! resolve c = fs !! resolve cookie_path).
Proof.
  intros Hq Hk Hmeta Hs Hc Hrun.
  destruct (stream_pcm_found json_load env req fs q k v rest c cev r w
              Hq Hk Hmeta Hs Hc Hrun) as (tail & -> & Hend).
  cbn [trace]. split; [|split; [|split]].
  - by exists ((tool_event (download_opts k c)
                  <$> fst (extract_info env (download_opts k c) (watch_url v))) ++ tail).
  - destruct (cookie_event_plain _ _ _ _ Hc) as [Hcev _].
    assert (Forall (fun ev => is_download ev = false) tail) as Htail.
    { destruct (download_answer env k c v) as [i|e].
      - destruct Hend as (lyrics & levs & (Hlyr & _) & _ & ->).
        apply Forall_app. split; [|by repeat constructor].
        eapply Forall_impl; [exact Hlyr|]. apply lyric_call_not_download.
      - destruct Hend as [_ ->]. constructor. }
    unfold download_events.
    rewrite !List.filter_app. cbn [List.filter is_download]. rewrite Hcev.
    rewrite (filter_download_none _ Htail), app_nil_r.
    rewrite filter_download_none; [done|].
    apply Forall_fmap, Forall_forall. intros eff _. apply tool_event_plain.
  - cbn [replay foldl apply_event].
    destruct Hc as [(_ & -> & ->)|(_ & [data Hd] & -> & ->)]; cbn [apply_event].
    + destruct (fs !! resolve cookie_path) eqn:Hfile; [by rewrite Hfile|].
      by rewrite lookup_insert_eq.
    + rewrite Hd. by rewrite lookup_insert_eq.
  - intros Ha. cbn [replay foldl apply_event].
    destruct Hc as [(Ha' & _)|(_ & [data Hd] & -> & ->)]; [congruence|].
    cbn [apply_event]. rewrite Hd. by rewrite lookup_insert_eq.
Qed.

(** X9.  The answer of a fresh download describes the first result of
    the search, not the request: [title] is the title of the video,
    [artist] the title of its channel, [cover_url] its high thumbnail;
    [duration] is what yt-dlp reports, 0 when it reports none; the two
    addresses are those of the key under [/music_cache/].  What is answered
    is what the metadata file holds at the end. *)
Theorem answer_describes_first_hit env req fs q k v rest c cev i r w :
  request_query req = Some q →
  get_cache_id q = Some k →
  fs !! resolve (meta_path k) = None →
  youtube_search env q = Ok (v :: rest) →
  cookie_used env fs c cev →
  download_answer env k c v = Ok i →
  run (stream_pcm json_load env req) fs = (r, w) →
  ∃ body,
    r = Ok (JsonResponse 200 (JDict body))
    ∧ dict_get (py "title") body = Some (JStr (snippet_title v))
    ∧ dict_get (py "artist") body = Some (JStr (channelTitle v))
    ∧ dict_get (py "cover_url") body = Some (JStr (thumbnail_high_url v))
    ∧ dict_get (py "duration") body = Some (default (JInt 0) (info_duration i))
    ∧ dict_get (py "audio_url") body
      = Some (JStr (py "/music_cache/" ++ k ++ py ".mp3"))
    ∧ dict_get (py "lyric_url") body
      = Some (JStr (py "/music_cache/" ++ k ++ py ".lrc"))
    ∧ files w !! resolve (meta_path k) = Some (Json.dumps (JDict body)).
Proof.
  intros Hq Hk Hmeta Hs Hc Hans Hrun.
  destruct (stream_pcm_found json_load env req fs q k v rest c cev r w
              Hq Hk Hmeta Hs Hc Hrun) as (tail & -> & Hend).
  rewrite Hans in Hend. destruct Hend as (lyrics & levs & _ & -> & ->).
  eexists. split; [reflexivity|].
  do 6 (split; [reflexivity|]).
  cbn [files]. rewrite !app_assoc, replay_app. apply persist_meta_file.
Qed.

(** X13.  When yt-dlp raises, the answer is 500 with the text of the
    exception after [Download failed: ]; the run ends with the download:
    no lyric source is called, and the files are left as yt-dlp left
    them, unfinished media files included. *)
Theorem download_failure_is_reported env req fs q k v rest c cev e r w :
  request_query req = Some q →
  get_cache_id q = Some k →
  fs !! resolve (meta_path k) = None →
  youtube_search env q = Ok (v :: rest) →
  cookie_used env fs c cev →
  download_answer env k c v = Raise e →
  run (stream_pcm json_load env req) fs = (r, w) →
  r = Ok (JsonResponse 500 (error_body (py "Download failed: " ++ exn_str e)))
  ∧ trace w = [EvCacheId q; EvExists (meta_path k); EvYoutubeSearch q; cev]
              ++ download_events env k c v
  ∧ files w = replay (download_events env k c v) (apply_event cev fs)
  ∧ Forall (fun ev => is_lyric_call ev = false) (trace w).
Proof.
  intros Hq Hk Hmeta Hs Hc Hans Hrun.
  destruct (stream_pcm_found json_load env req fs q k v rest c cev r w
              Hq Hk Hmeta Hs Hc Hrun) as (tail & -> & Hend).
  rewrite Hans in Hend. destruct Hend as [-> ->].
  rewrite app_nil_r. cbn [trace files].
  split; [done|]. split; [done|]. split; [by rewrite replay_app|].
  destruct (cookie_event_plain _ _ _ _ Hc) as [_ Hcev].
  apply Forall_app. split; [by repeat constructor|].
  unfold download_events. apply Forall_cons. split; [done|].
  apply Forall_fmap, Forall_forall. intros eff _.
  apply tool_event_plain.
Qed.

End Download.

(** ** From the answer to the files *)

Lemma startswith_app p x : startswith p (p ++ x) = true.
Proof. induction p as [|a p IH]; [done|]. simpl. by rewrite N.eqb_refl. Qed.

Lemma key_head k : is_key k → ∃ c rest, k = c :: rest ∧ c ≠ 47.
Proof.
  intros [Hlen Hhex]. destruct k as [|c rest]; [done|].
  exists c, rest. split; [done|].
  apply Forall_cons in Hhex as [Hc _]. destruct Hc; lia.
Qed.

Lemma cache_route_key k suffix :
  is_key k →
  cache_route (py "/" ++ CACHE_DIR ++ py "/" ++ k ++ suffix) = Some (k ++ suffix).
Proof.
  intros Hk. destruct (key_head k Hk) as (c & rest & -> & Hc).
  unfold cache_route.
  replace (py "/" ++ CACHE_DIR ++ py "/" ++ (c :: rest) ++ suffix)
    with ((py "/" ++ CACHE_DIR ++ py "/") ++ (c :: rest) ++ suffix)
    by by rewrite <- !app_assoc.
  rewrite startswith_app, drop_app_length. cbn [app].
  by destruct (N.eqb_spec c 47).
Qed.

Lemma path_join_key k suffix :
  is_key k → path_join CACHE_DIR (k ++ suffix) = CACHE_DIR ++ py "/" ++ k ++ suffix.
Proof.
  intros Hk. destruct (key_head k Hk) as (c & rest & -> & Hc).
  apply path_join_relative. change (py "/") with [47].
  cbn [app startswith]. destruct (N.eqb_spec 47 c); [congruence|done].
Qed.

Lemma mimetype_mp3 name : mimetype_of (name ++ py ".mp3") = py "audio/mpeg".
Proof. unfold mimetype_of. by rewrite endswith_app_le by (vm_compute; lia). Qed.

Lemma mimetype_lrc name :
  mimetype_of (name ++ py ".lrc") = py "text/plain; charset=utf-8".
Proof.
  unfold mimetype_of. rewrite !endswith_app_le by (vm_compute; lia). reflexivity.
Qed.

Section Addresses.
Variable json_load : pystr → result json.

(** X3.  The addresses in the answer of a fresh download are routes of
    [serve_cache] for the files of the key.  [lyric_url] is served: 200,
    plain text, the content of the lyric file the run wrote.  [audio_url]
    is served as [audio/mpeg] with the content of the [.mp3] file when
    yt-dlp left one, and answered 404 when nothing is at that path: the
    handler does not look for the file before it answers. *)
Theorem answer_urls_are_served env req fs q k r w body dirs :
  request_query req = Some q →
  get_cache_id q = Some k →
  fs !! resolve (meta_path k) = None →
  run (stream_pcm json_load env req) fs = (r, w) →
  r = Ok (JsonResponse 200 (JDict body)) →
  ∃ lyric_url audio_url,
    dict_get (py "lyric_url") body = Some (JStr lyric_url)
    ∧ dict_get (py "audio_url") body = Some (JStr audio_url)
    ∧ cache_route lyric_url = Some (k ++ py ".lrc")
    ∧ cache_route audio_url = Some (k ++ py ".mp3")
    ∧ (∃ lyrics pieces,
         files w !! resolve (lrc_path k) = Some lyrics
         ∧ fst (run (serve_cache dirs (k ++ py ".lrc")) (files w))
           = Ok (FileResponse (py "text/plain; charset=utf-8") pieces)
         ∧ concat pieces = lyrics)
    ∧ (∀ data, files w !! resolve (cache_path k (py "mp3")) = Some data →
         ∃ pieces,
           fst (run (serve_cache dirs (k ++ py ".mp3")) (files w))
           = Ok (FileResponse (py "audio/mpeg") pieces)
           ∧ concat pieces = data)
    ∧ (stat dirs (files w) (cache_path k (py "mp3")) = NoEntry →
       fst (run (serve_cache dirs (k ++ py ".mp3")) (files w))
       = Ok (JsonResponse 404 (error_body (py "file not found")))).
Proof.
  intros Hq Hk Hmeta Hrun Hr.
  pose proof (get_cache_id_is_key _ _ Hk) as Hkey.
  apply stream_pcm_outcome in Hrun as (evs & -> & Ho). cbn [files].
  destruct Ho as [Hq'|q' e Hq' Hk'|q' k' text' r Hq' Hk' Hmeta' Hc
                  |q' k' r evs Hq' Hk' Hmeta' Hf]; try congruence.
  assert (q' = q) as -> by congruence.
  assert (k' = k) as -> by congruence.
  destruct Hf as [r pre Hfail _ _|v rest duration lyrics pre levs _ _ _ _].
  { subst r. by apply fetch_failure_status in Hfail as [_ ?]. }
  injection Hr as <-.
  set (fs' := replay _ fs).
  assert (fs' !! resolve (lrc_path k) = Some lyrics) as Hlrc.
  { unfold fs'. rewrite !app_assoc, replay_app. by apply persist_files. }
  assert (path_join CACHE_DIR (k ++ py ".lrc") = lrc_path k) as Hjl
    by by rewrite path_join_key.
  assert (path_join CACHE_DIR (k ++ py ".mp3") = cache_path k (py "mp3")) as Hjm
    by by rewrite path_join_key.
  assert (∀ ext data, (47 ∉ ext) → fs' !! resolve (cache_path k ext) = Some data →
            stat dirs fs' (cache_path k ext) = File data) as Hstat.
  { intros ext data Hext Hdata. rewrite stat_cache_path by done.
    unfold node_at. by rewrite Hdata. }
  exists (py "/" ++ CACHE_DIR ++ py "/" ++ k ++ py ".lrc"),
         (py "/" ++ CACHE_DIR ++ py "/" ++ k ++ py ".mp3").
  split; [reflexivity|]. split; [reflexivity|].
  split; [by apply cache_route_key|]. split; [by apply cache_route_key|].
  split; [|split].
  - exists lyrics, (chunks 4096 lyrics). split; [done|].
    rewrite (serve_cache_present _ _ _ lyrics)
      by (rewrite Hjl; apply Hstat; [no_slash|done]).
    cbn [fst]. rewrite mimetype_lrc. split; [done|].
    apply chunked_concat; lia.
  - intros data Hdata. exists (chunks 4096 data).
    rewrite (serve_cache_present _ _ _ data)
      by (rewrite Hjm; apply Hstat; [no_slash|done]).
    cbn [fst]. rewrite mimetype_mp3. split; [done|].
    apply chunked_concat; lia.
  - intros Hnone. by rewrite serve_cache_absent by by rewrite Hjm.
Qed.

End Addresses.

(** X15.  The key does not tell the song from the artist: a request
    that gives both in [song], separated by a space, and no [artist] (what
    the page of [web_ui] sends) has the query, and so the cache entry, of
    the request that gives them apart. *)
Theorem song_and_artist_share_the_query (song artist : pystr) :
  song ≠ [] →
  request_query {| arg_song := Some (song ++ py " " ++ artist); arg_artist := None |}
  = request_query {| arg_song := Some song; arg_artist := Some artist |}
  ∧ get_cache_id (query_of (song ++ py " " ++ artist) [])
    = get_cache_id (query_of song artist).
Proof.
  intros Hsong.
  assert (query_of (song ++ py " " ++ artist) [] = query_of song artist) as Heq.
  { unfold query_of. rewrite <- !app_assoc.
    rewrite (app_assoc song), (app_assoc (song ++ py " ")).
    rewrite app_nil_r.
    rewrite strip_space_r; [by rewrite <- app_assoc|].
    by repeat constructor. }
  split; [|by rewrite Heq].
  unfold request_query. cbn [arg_song arg_artist default].
  destruct song as [|c song]; [done|]. cbn [app].
  f_equal. exact Heq.
Qed.

(** ** The properties above on the scenarios *)

Lemma cookie_locked_search :
  youtube_search Scenario.env_cookie_locked Scenario.query = Ok [Scenario.the_video].
Proof. reflexivity. Qed.

Lemma served_body_is_the_file_witness :
  stat ∅ Scenario.cached_fs (path_join CACHE_DIR Runs.lrc_name) = File (py "The club")
  ∧ ∃ body,
      fst Runs.served = Ok (FileResponse (mimetype_of Runs.lrc_name) body)
      ∧ concat body = py "The club"
      ∧ Forall (fun c => c ≠ [] ∧ (length c ≤ 4096)%nat) body.
Proof.
  split; [exact served_stat|].
  apply (served_body_is_the_file ∅ Runs.lrc_name Scenario.cached_fs (py "The club")
           (fst Runs.served) (snd Runs.served) served_stat).
  apply surjective_pairing.
Defined.

Lemma query_ignores_surrounding_space_witness :
  query_of (py "  " ++ py "Shape of You") (py "Ed Sheeran" ++ py " ") = Scenario.query
  ∧ get_cache_id (query_of (py "  " ++ py "Shape of You") (py "Ed Sheeran" ++ py " "))
    = Some Scenario.key.
Proof.
  destruct (query_ignores_surrounding_space (py "  ") (py " ")
              (py "Shape of You") (py "Ed Sheeran")) as (Hquery & Hkey & _).
  - vm_compute. by repeat constructor.
  - vm_compute. by repeat constructor.
  - split.
    + rewrite Hquery. vm_compute. reflexivity.
    + rewrite Hkey. vm_compute. reflexivity.
Defined.

Lemma blank_song_is_looked_up_witness :
  request_query Runs.blank_req = Some []
  ∧ http_status (fst Runs.blank) ≠ 400
  ∧ ∃ rest,
      trace (snd Runs.blank)
      = EvCacheId []
        :: EvExists (meta_path (py "d41d8cd98f00b204e9800998ecf8427e")) :: rest.
Proof.
  apply (blank_song_is_looked_up Scenario.json_load Scenario.env_no_video
           Runs.blank_req (py "  ") ∅ (fst Runs.blank) (snd Runs.blank)).
  - reflexivity.
  - vm_compute. discriminate.
  - vm_compute. by repeat constructor.
  - constructor.
  - apply surjective_pairing.
Defined.

Lemma stream_pcm_answers_witness :
  (∃ body, JsonResponse 200 (JDict Scenario.record) = JsonResponse 200 (JDict body))
  ∨ (∃ status msg,
       JsonResponse 200 (JDict Scenario.record)
       = JsonResponse status (JDict [(py "error", JStr msg)])
       ∧ (status = 400 ∨ status = 404 ∨ status = 500)).
Proof.
  apply (stream_pcm_answers Scenario.json_load Scenario.env Scenario.req ∅
           (fst Runs.fresh) (snd Runs.fresh)).
  - apply surjective_pairing.
  - vm_compute. reflexivity.
Defined.

Lemma broken_metadata_blocks_the_key_witness :
  Runs.broken_fs !! resolve (meta_path Scenario.key) = Some []
  ∧ (∃ e, fst Runs.broken = Raise e)
  ∧ http_status (fst Runs.broken) = 500
  ∧ files (snd Runs.broken) = Runs.broken_fs
  ∧ Forall (fun ev => is_external ev = false ∧ written_path ev = None)
      (trace (snd Runs.broken))
  ∧ ∀ env' r' w',
      run (stream_pcm Scenario.json_load env' Scenario.req) (files (snd Runs.broken))
      = (r', w') → ∃ e', r' = Raise e'.
Proof.
  assert (Runs.broken_fs !! resolve (meta_path Scenario.key) = Some []) as Hfile
    by (vm_compute; reflexivity).
  split; [exact Hfile|].
  apply (broken_metadata_blocks_the_key Scenario.json_load Scenario.env Scenario.req
           Runs.broken_fs Scenario.query Scenario.key [] (fst Runs.broken)
           (snd Runs.broken) scenario_query scenario_key Hfile).
  - intros d. vm_compute. discriminate.
  - apply surjective_pairing.
Defined.

Lemma repeated_request_is_served_from_cache_witness :
  fst Runs.after_fresh = fst Runs.fresh
  ∧ files (snd Runs.after_fresh) = files (snd Runs.fresh)
  ∧ Forall (fun ev => is_external ev = false ∧ written_path ev = None)
      (trace (snd Runs.after_fresh)).
Proof.
  apply (repeated_request_is_served_from_cache Scenario.json_load Scenario.env
           Scenario.env_no_video Scenario.req ∅ (fst Runs.fresh) (snd Runs.fresh)
           Scenario.record (fst Runs.after_fresh) (snd Runs.after_fresh)).
  - apply surjective_pairing.
  - vm_compute. reflexivity.
  - vm_compute. reflexivity.
  - apply surjective_pairing.
Defined.

Lemma other_keys_untouched_witness :
  files (snd Runs.fresh)
    !! resolve (cache_path (py "d41d8cd98f00b204e9800998ecf8427e") (py "json"))
  = (∅ : filesystem)
    !! resolve (cache_path (py "d41d8cd98f00b204e9800998ecf8427e") (py "json")).
Proof.
  apply (other_keys_untouched Scenario.json_load Scenario.env Scenario.req ∅
           Scenario.query Scenario.key (fst Runs.fresh) (snd Runs.fresh)
           (py "d41d8cd98f00b204e9800998ecf8427e") (py "json")
           scenario_query scenario_key).
  - exact (get_cache_id_is_key _ _ md5_empty).
  - vm_compute. discriminate.
  - no_slash.
  - apply surjective_pairing.
Defined.

Lemma search_exception_is_uncaught_witness :
  fst Runs.search_down = Raise Scenario.boom
  ∧ http_status (fst Runs.search_down) = 500
  ∧ trace (snd Runs.search_down)
    = [EvCacheId Scenario.query; EvExists (meta_path Scenario.key);
       EvYoutubeSearch Scenario.query]
  ∧ files (snd Runs.search_down) = ∅.
Proof.
  apply (search_exception_is_uncaught Scenario.json_load Scenario.env_search_down
           Scenario.req ∅ Scenario.query Scenario.key Scenario.boom
           (fst Runs.search_down) (snd Runs.search_down) scenario_query scenario_key).
  - apply lookup_empty.
  - reflexivity.
  - apply surjective_pairing.
Defined.

Lemma unusable_cookie_file_is_uncaught_witness :
  fst Runs.cookie_missing = Raise (Exn (py "FileNotFoundError") cookie_path)
  ∧ http_status (fst Runs.cookie_missing) = 500
  ∧ trace (snd Runs.cookie_missing)
    = [EvCacheId Scenario.query; EvExists (meta_path Scenario.key);
       EvYoutubeSearch Scenario.query]
  ∧ files (snd Runs.cookie_missing) = ∅.
Proof.
  apply (unusable_cookie_file_is_uncaught Scenario.json_load Scenario.env_cookie_locked
           Scenario.req ∅ Scenario.query Scenario.key Scenario.the_video []
           (fst Runs.cookie_missing) (snd Runs.cookie_missing)
           scenario_query scenario_key).
  - apply lookup_empty.
  - exact cookie_locked_search.
  - reflexivity.
  - apply lookup_empty.
  - apply surjective_pairing.
Defined.

Lemma cookie_fs_no_metadata :
  Scenario.cookie_fs !! resolve (meta_path Scenario.key) = None.
Proof. vm_compute. reflexivity. Qed.

Lemma cookie_fs_copy :
  cookie_used Scenario.env_cookie_locked Scenario.cookie_fs writable_cookie_path
    (EvCopy cookie_path writable_cookie_path).
Proof.
  right. split; [reflexivity|]. split; [|by split].
  exists (py "# Netscape"). vm_compute. reflexivity.
Qed.

Lemma empty_fs_append :
  cookie_used Scenario.env ∅ cookie_path (EvOpenA cookie_path).
Proof. by left. Qed.

Lemma download_targets_first_hit_witness :
  (∃ tail,
     trace (snd Runs.cookie_copied)
     = [EvCacheId Scenario.query; EvExists (meta_path Scenario.key);
        EvYoutubeSearch Scenario.query; EvCopy cookie_path writable_cookie_path;
        EvExtractInfo (download_opts Scenario.key writable_cookie_path)
          (watch_url Scenario.the_video)] ++ tail)
  ∧ List.filter is_download (trace (snd Runs.cookie_copied))
    = [EvExtractInfo (download_opts Scenario.key writable_cookie_path)
         (watch_url Scenario.the_video)]
  ∧ is_Some (replay [EvCacheId Scenario.query; EvExists (meta_path Scenario.key);
                     EvYoutubeSearch Scenario.query;
                     EvCopy cookie_path writable_cookie_path] Scenario.cookie_fs
             !! resolve writable_cookie_path)
  ∧ (can_append Scenario.env_cookie_locked cookie_path = false →
     replay [EvCacheId Scenario.query; EvExists (meta_path Scenario.key);
             EvYoutubeSearch Scenario.query;
             EvCopy cookie_path writable_cookie_path] Scenario.cookie_fs
       !! resolve writable_cookie_path
     = Scenario.cookie_fs !! resolve cookie_path).
Proof.
  apply (download_targets_first_hit Scenario.json_load Scenario.env_cookie_locked
           Scenario.req Scenario.cookie_fs Scenario.query Scenario.key
           Scenario.the_video [] writable_cookie_path
           (EvCopy cookie_path writable_cookie_path)
           (fst Runs.cookie_copied) (snd Runs.cookie_copied)
           scenario_query scenario_key cookie_fs_no_metadata cookie_locked_search
           cookie_fs_copy).
  apply surjective_pairing.
Defined.

Lemma answer_describes_first_hit_witness :
  ∃ body,
    fst Runs.fresh = Ok (JsonResponse 200 (JDict body))
    ∧ dict_get (py "title") body = Some (JStr (py "Shape of You"))
    ∧ dict_get (py "artist") body = Some (JStr (py "Ed Sheeran"))
    ∧ dict_get (py "duration") body = Some (JInt 233)
    ∧ dict_get (py "audio_url") body
      = Some (JStr (py "/music_cache/9b0fff41d91f894fbb03b584575b8664.mp3"))
    ∧ files (snd Runs.fresh) !! resolve (meta_path Scenario.key)
      = Some (Json.dumps (JDict body)).
Proof.
  destruct (answer_describes_first_hit Scenario.json_load Scenario.env Scenario.req ∅
              Scenario.query Scenario.key Scenario.the_video [] cookie_path
              (EvOpenA cookie_path) {| info_duration := Some (JInt 233) |}
              (fst Runs.fresh) (snd Runs.fresh) scenario_query scenario_key
              (lookup_empty _) eq_refl empty_fs_append eq_refl
              (surjective_pairing _))
    as (body & Hr & Htitle & Hartist & _ & Hduration & Haudio & _ & Hfile).
  exists body. split; [exact Hr|]. split; [exact Htitle|]. split; [exact Hartist|].
  split; [exact Hduration|]. split; [exact Haudio|exact Hfile].
Defined.

Lemma download_failed_cookie :
  cookie_used Scenario.env_download_fails ∅ cookie_path (EvOpenA cookie_path).
Proof. by left. Qed.

Lemma download_failure_is_reported_witness :
  fst Runs.download_failed
  = Ok (JsonResponse 500 (error_body (py "Download failed: boom")))
  ∧ files (snd Runs.download_failed)
      !! resolve (cache_path Scenario.key (py "webm.part")) = Some [1]
  ∧ Forall (fun ev => is_lyric_call ev = false) (trace (snd Runs.download_failed)).
Proof.
  destruct (download_failure_is_reported Scenario.json_load Scenario.env_download_fails
              Scenario.req ∅ Scenario.query Scenario.key Scenario.the_video []
              cookie_path (EvOpenA cookie_path) Scenario.boom
              (fst Runs.download_failed) (snd Runs.download_failed)
              scenario_query scenario_key (lookup_empty _) eq_refl
              download_failed_cookie eq_refl (surjective_pairing _))
    as (Hr & _ & Hfiles & Hquiet).
  split; [exact Hr|]. split; [|exact Hquiet].
  rewrite Hfiles. vm_compute. reflexivity.
Defined.

Lemma answer_urls_are_served_witness :
  ∃ lyric_url audio_url,
    dict_get (py "lyric_url") Scenario.record = Some (JStr lyric_url)
    ∧ dict_get (py "audio_url") Scenario.record = Some (JStr audio_url)
    ∧ cache_route lyric_url = Some Runs.lrc_name
    ∧ cache_route audio_url = Some (Scenario.key ++ py ".mp3")
    ∧ ∃ lyrics pieces,
        files (snd Runs.fresh) !! resolve (lrc_path Scenario.key) = Some lyrics
        ∧ fst Runs.fresh_lyrics
          = Ok (FileResponse (py "text/plain; charset=utf-8") pieces)
        ∧ concat pieces = lyrics.
Proof.
  destruct (answer_urls_are_served Scenario.json_load Scenario.env Scenario.req ∅
              Scenario.query Scenario.key (fst Runs.fresh) (snd Runs.fresh)
              Scenario.record ∅ scenario_query scenario_key (lookup_empty _)
              (surjective_pairing _))
    as (lyric_url & audio_url & Hl & Ha & Hrl & Hra & Hserved & _).
  - vm_compute. reflexivity.
  - exists lyric_url, audio_url.
    split; [exact Hl|]. split; [exact Ha|]. split; [exact Hrl|].
    split; [exact Hra|exact Hserved].
Defined.

Lemma song_and_artist_share_the_query_witness :
  request_query {| arg_song := Some (py "Shape of You" ++ py " " ++ py "Ed Sheeran");
                   arg_artist := None |}
  = request_query Scenario.req
  ∧ get_cache_id (query_of (py "Shape of You" ++ py " " ++ py "Ed Sheeran") [])
    = get_cache_id (query_of (py "Shape of You") (py "Ed Sheeran")).
Proof.
  apply (song_and_artist_share_the_query (py "Shape of You") (py "Ed Sheeran")).
  vm_compute. discriminate.
Defined.
